(** * go-rate-limiter: token buckets behind a storage contract

    A shallow embedding of the two storages of the repository and the
    properties of their specification:

    - [Bucket]: the in-process bucket (tick, availableTokens, newBucket,
      get, take);
    - [MemStorage]: the in-process registry of buckets
      (NewMemStorage, Close, Take, Get, Set, Burst);
    - [Script]: the server-side script of the distributed storage
      (scripttemplate.lua), which does not compile as it is;
    - [RedisStorage]: the client of the distributed storage
      (NewRSWithPool, NewRS, NewRedisStorage, Take, Get, Set, Burst, Close);
    - [Sweep]: one pass of the eviction loop of the in-process storage
      (purge);
    - [HttpLimiter]: the HTTP middleware (HeadersKeyFunc,
      NewLimiterMiddleware, Handle).

    Unsigned 64-bit integers are integers of [Z] with the wrap-around
    written out; [time.Duration] is a signed 64-bit integer; [float64] is
    IEEE 754 binary64 through the executable specification [SpecFloat].
    The wall clock ([nanoNow]) is an input: every operation takes the
    readings it performs as arguments. Operations run one at a time: locks,
    the background sweep and connection pooling are outside the model. *)

From Stdlib Require Import ZArith Lia Bool List String.
From Stdlib Require Import Floats.SpecFloat.
From stdpp Require Import base option list gmap strings.

Local Open Scope Z_scope.

(** ** Machine integers *)

Module U64.

Definition modulus : Z := 2 ^ 64.

(** Truncation of an integer to 64 bits, read unsigned. *)
Definition wrap (z : Z) : Z := z mod modulus.

Definition add (a b : Z) : Z := wrap (a + b).
Definition sub (a b : Z) : Z := wrap (a - b).
Definition mul (a b : Z) : Z := wrap (a * b).

(** [uint64(d)] for a signed 64-bit [d]. *)
Definition of_int64 (d : Z) : Z := wrap d.

End U64.

Module I64.

Definition min_int : Z := - 2 ^ 63.
Definition max_int : Z := 2 ^ 63 - 1.

Definition in_range (z : Z) : Prop := min_int <= z <= max_int.

Definition in_rangeb (z : Z) : bool := (min_int <=? z) && (z <=? max_int).

End I64.

(** ** float64 *)

Module F64.

Definition prec : Z := 53.
Definition emax : Z := 1024.

Definition float64 : Type := spec_float.

(** [float64(z)] for an integer [z]: rounded to nearest, ties to even. *)
Definition of_Z (z : Z) : float64 := binary_normalize prec emax z 0 false.

Definition mul (x y : float64) : float64 := SFmul prec emax x y.
Definition div (x y : float64) : float64 := SFdiv prec emax x y.

(** The integer part of a finite float, towards zero. *)
Definition trunc (x : float64) : option Z :=
  match x with
  | S754_zero _ => Some 0
  | S754_finite s m e =>
      let a := match e with
               | Zneg p => Z.shiftr (Zpos m) (Zpos p)
               | _ => Z.shiftl (Zpos m) e
               end in
      Some (if s then - a else a)
  | _ => None
  end.

(** [uint64(x)]. Go discards the fraction; when the result is not a
    [uint64] (NaN, an infinity, a negative or too large value) the
    language leaves the converted value to the implementation, and the
    embedding fixes one value, [2 ^ 63], for all of them. *)
Definition to_uint64 (x : float64) : Z :=
  match trunc x with
  | Some z => if (0 <=? z) && (z <? U64.modulus) then z else 2 ^ 63
  | None => 2 ^ 63
  end.

End F64.

(** ** Time *)

Definition Millisecond : Z := 1000000.
Definition Second : Z := 1000000000.
Definition Hour : Z := 3600 * Second.

(** ** The in-process bucket (package memstorage, bucket.go) *)

Module Bucket.

(** [tick] returns the number of times [interval] has occurred between
    [start] and [current]; the division panics on a zero divisor
    ([None]). *)
Definition tick (start current interval : Z) : option Z :=
  let d := U64.of_int64 interval in
  if d =? 0 then None else Some (U64.sub current start / d).

Definition availableTokens (lastTick currentTick max : Z)
    (fillRate : F64.float64) : Z :=
  let delta := U64.sub currentTick lastTick in
  let available := F64.to_uint64 (F64.mul (F64.of_Z delta) fillRate) in
  if max <? available then max else available.

Module bucket.
Record t : Type := mk {
  startTime : Z;
  maxTokens : Z;
  interval : Z;
  fillRate : F64.float64;
  availableTokens : Z;
  lastTick : Z
}.
End bucket.

(** [newBucket tokens interval], with the clock reading [now]. *)
Definition newBucket (now tokens interval : Z) : bucket.t :=
  {| bucket.startTime := now;
     bucket.maxTokens := tokens;
     bucket.interval := interval;
     bucket.fillRate := F64.div (F64.of_Z interval) (F64.of_Z tokens);
     bucket.availableTokens := tokens;
     bucket.lastTick := 0 |}.

Definition get (b : bucket.t) : Z * Z :=
  (bucket.maxTokens b, bucket.availableTokens b).

(** What [take] returns: tokens, remaining, reset, ok (its error is
    always nil). *)
Record taken : Type := mkTaken {
  tokens : Z;
  remaining : Z;
  reset : Z;
  ok : bool
}.

(** The refill step of [take]: the guarded assignment of
    [availableTokens] and [lastTick]. *)
Definition refill (b : bucket.t) (currentTick : Z) : bucket.t :=
  if bucket.lastTick b <? currentTick then
    {| bucket.startTime := bucket.startTime b;
       bucket.maxTokens := bucket.maxTokens b;
       bucket.interval := bucket.interval b;
       bucket.fillRate := bucket.fillRate b;
       bucket.availableTokens :=
         availableTokens (bucket.lastTick b) currentTick
           (bucket.maxTokens b) (bucket.fillRate b);
       bucket.lastTick := currentTick |}
  else b.

(** The consumption step of [take]. *)
Definition consume (b : bucket.t) : bucket.t * (bool * Z) :=
  if 0 <? bucket.availableTokens b then
    let a := U64.sub (bucket.availableTokens b) 1 in
    ({| bucket.startTime := bucket.startTime b;
        bucket.maxTokens := bucket.maxTokens b;
        bucket.interval := bucket.interval b;
        bucket.fillRate := bucket.fillRate b;
        bucket.availableTokens := a;
        bucket.lastTick := bucket.lastTick b |}, (true, a))
  else (b, (false, 0)).

(** [take], with the clock reading [now]; [None] is the panic of
    [tick]. *)
Definition take (b : bucket.t) (now : Z) : option (bucket.t * taken) :=
  match tick (bucket.startTime b) now (bucket.interval b) with
  | None => None
  | Some currentTick =>
      let tokens := bucket.maxTokens b in
      let reset :=
        U64.add (bucket.startTime b)
          (U64.mul (U64.add currentTick 1)
             (U64.of_int64 (bucket.interval b))) in
      let b1 := refill b currentTick in
      let '(b2, (ok, remaining)) := consume b1 in
      Some (b2, mkTaken tokens remaining reset ok)
  end.

End Bucket.

(** ** Errors *)

Inductive error : Type :=
  | ErrStopped        (* ratelimiter.ErrStopped: "store is stopped" *)
  | ErrStoppedFlag    (* memstorage.ErrStoppedFlag *)
  | ErrScript         (* "script error: ..." *)
  | ErrGetFields.     (* "failed to get key fields: ..." *)

(** ** The in-process storage (package memstorage, memstorage.go) *)

Module MemStorage.

Record Config : Type := mkConfig {
  Tokens : Z;
  Interval : Z;
  SweepInterval : Z;
  SweepMinTTL : Z;
  InitAlloc : Z
}.

(** [new(Config)]. *)
Definition zeroConfig : Config := mkConfig 0 0 0 0 0.

Record t : Type := mk {
  tokens : Z;
  interval : Z;
  sweepInterval : Z;
  sweepMinTTL : Z;
  buckets : gmap string Bucket.bucket.t;
  stopped : Z
}.

Definition with_buckets (s : t) (m : gmap string Bucket.bucket.t) : t :=
  mk (tokens s) (interval s) (sweepInterval s) (sweepMinTTL s) m
     (stopped s).

Definition NewMemStorage (cfg : option Config) : t :=
  let cfg := default zeroConfig cfg in
  let tokens := if 0 <? Tokens cfg then Tokens cfg else 1 in
  let interval := if 0 <? Interval cfg then Interval cfg else 1 * Second in
  let sweepInterval :=
    if 0 <? SweepInterval cfg then SweepInterval cfg else 6 * Hour in
  let sweepMinTTL :=
    if 0 <? SweepMinTTL cfg then SweepMinTTL cfg else 12 * Hour in
  mk tokens interval sweepInterval (U64.of_int64 sweepMinTTL) ∅ 0.

(** [Close]: the compare-and-swap of the stop flag, then the registry is
    emptied. *)
Definition Close (s : t) : t * option error :=
  if stopped s =? 0 then
    (mk (tokens s) (interval s) (sweepInterval s) (sweepMinTTL s) ∅ 1,
     None)
  else (s, Some ErrStoppedFlag).

(** [bucket.take()] on the bucket [b] registered under [key]: the bucket
    is updated in place. *)
Definition takeFrom (s : t) (key : string) (b : Bucket.bucket.t)
    (now : Z) : option (t * (Bucket.taken * option error)) :=
  match Bucket.take b now with
  | None => None
  | Some (b', r) => Some (with_buckets s (<[key := b']> (buckets s)), (r, None))
  end.

(** [Take]. [created] is the clock reading of [newBucket] (read only
    when the key is absent), [now] the reading of [bucket.take]. *)
Definition Take (s : t) (key : string) (created now : Z)
    : option (t * (Bucket.taken * option error)) :=
  if stopped s =? 1 then
    Some (s, (Bucket.mkTaken 0 0 0 false, Some ErrStopped))
  else
    match buckets s !! key with
    | Some b => takeFrom s key b now
    | None =>
        takeFrom s key (Bucket.newBucket created (tokens s) (interval s)) now
    end.

Definition Get (s : t) (key : string) : Z * Z * option error :=
  if stopped s =? 1 then (0, 0, Some ErrStopped)
  else
    match buckets s !! key with
    | Some b => (Bucket.get b, None)
    | None => (0, 0, None)
    end.

(** [Set], with the clock reading [now] of [newBucket]. *)
Definition Set_ (s : t) (key : string) (tokens interval now : Z)
    : t * option error :=
  (with_buckets s (<[key := Bucket.newBucket now tokens interval]> (buckets s)),
   None).

(** [Burst], with the clock reading [now] of [newBucket] (read only when
    the key is absent). *)
Definition Burst (s : t) (key : string) (tokens now : Z)
    : t * option error :=
  match buckets s !! key with
  | Some b =>
      let b' :=
        Bucket.bucket.mk (Bucket.bucket.startTime b)
          (Bucket.bucket.maxTokens b) (Bucket.bucket.interval b)
          (Bucket.bucket.fillRate b)
          (U64.add (Bucket.bucket.availableTokens b) tokens)
          (Bucket.bucket.lastTick b) in
      (with_buckets s (<[key := b']> (buckets s)), None)
  | None =>
      let b := Bucket.newBucket now (U64.add (MemStorage.tokens s) tokens)
                 (interval s) in
      (with_buckets s (<[key := b]> (buckets s)), None)
  end.

(** A run of sequential [Take] calls on one key, one pair of clock
    readings per call. *)
Fixpoint Takes (s : t) (key : string) (clock : list (Z * Z))
    : option (t * list (Bucket.taken * option error)) :=
  match clock with
  | [] => Some (s, [])
  | (created, now) :: clock' =>
      match Take s key created now with
      | None => None
      | Some (s1, r) =>
          match Takes s1 key clock' with
          | None => None
          | Some (s2, rs) => Some (s2, r :: rs)
          end
      end
  end.

End MemStorage.

(** ** The key-value server, as far as the storage uses it

    One hash per key, with an optional time to live. Field values are the
    decimal integers the client writes. Time does not pass
    inside the model: a time to live is recorded, and a key is removed only
    by an [EXPIRE] whose argument is not positive (which the server treats
    as a deletion). *)

Module Redis.

Record db : Type := mk {
  hashes : gmap string (gmap string Z);
  expires : gmap string Z
}.

Definition empty : db := mk ∅ ∅.

Definition HGETALL (d : db) (key : string) : gmap string Z :=
  default ∅ (hashes d !! key).

Definition HSET (d : db) (key : string) (fvs : list (string * Z)) : db :=
  mk (<[key := foldl (fun h fv => <[fv.1 := fv.2]> h) (HGETALL d key) fvs]>
        (hashes d))
     (expires d).

Definition HMGET (d : db) (key : string) (fields : list string)
    : list (option Z) :=
  (fun f => HGETALL d key !! f) <$> fields.

(** [HINCRBY] counts in signed 64-bit integers: an absent field counts
    as 0; a stored value, an increment or a sum out of that range is an
    error reply and leaves the hash as it is. *)
Definition HINCRBY (d : db) (key field : string) (n : Z) : db :=
  let old := default 0 (HGETALL d key !! field) in
  if I64.in_rangeb old && I64.in_rangeb n && I64.in_rangeb (old + n)
  then HSET d key [(field, old + n)]
  else d.

Definition EXPIRE (d : db) (key : string) (seconds : Z) : db :=
  match hashes d !! key with
  | None => d
  | Some _ =>
      if 0 <? seconds then mk (hashes d) (<[key := seconds]> (expires d))
      else mk (delete key (hashes d)) (delete key (expires d))
  end.

End Redis.

(** ** The server-side script (redisstorage/scripttemplate.lua)

    The script as the repository has it. Its lines 50 and 60,
    [local tick(start, current, interval)] and [local timeToLive(interval)],
    declare a local and go on with a parenthesised list of names, which is
    no statement: the chunk does not compile, the server answers every
    evaluation of it with an error, and none of its statements runs. (Past
    these two lines the first statement of the body, at line 65, would call
    the server with [CMD_HGETALL], a name the script binds nowhere.)

    What the embedding keeps of the text are the field names it declares,
    the shape of its reply, and the guard of its refill block, on the
    numbers of the script, which are doubles. *)

Module Script.

Definition FIELD_START : string := "s".
Definition FIELD_TICK : string := "t".
Definition FIELD_INTERVAL : string := "i".
Definition FIELD_CURRENT_TOKENS : string := "k".
Definition FIELD_MAX_TOKENS : string := "m".

(** What an evaluation sends back: the four values of the return
    statements of the script (lines 122 and 125), or an error reply. *)
Inductive reply : Type :=
  | Values (maxTokens tokens nextTime : Z) (ok : bool)
  | Failed.

(** The guard of the refill block, line 104: [lastTick > currentTick]. *)
Definition refillGuard (lastTick currentTick : F64.float64) : bool :=
  SFltb currentTick lastTick.

(** An evaluation of the script on [key] with the arguments [now],
    [defaultMaxTokens] and [defaultInterval]: the compilation fails, and
    the server state is the one of before. *)
Definition run (d : Redis.db) (key : string)
    (now defaultMaxTokens defaultInterval : Z) : Redis.db * reply :=
  (d, Failed).

End Script.

(** ** The client of the distributed storage (package redisstorage)

    The methods are those of the pooled client; every call on a storage
    that is not stopped is taken with a usable connection, and the commands
    a method sends have reached the server when it returns. *)

Module RedisStorage.

Definition fieldInterval : string := "i".
Definition fieldMaxTokens : string := "m".
Definition fieldCurrentTokens : string := "t".

Record Config : Type := mkConfig {
  Tokens : Z;
  Interval : Z;
  MaxActive : Z
}.

(** [new(Config)]. *)
Definition zeroConfig : Config := mkConfig 0 0 0.

Record t : Type := mk {
  tokens : Z;
  interval : Z;
  stopped : Z
}.

Definition NewRSWithPool (cfg : option Config) : t :=
  let cfg := default zeroConfig cfg in
  let tokens := if 9 <? Tokens cfg then Tokens cfg else 1 in
  let interval := if 0 <? Interval cfg then Interval cfg else 1 * Second in
  mk tokens interval 0.

(** [NewRS] reads [cfg.Dial] before any nil check: a nil configuration
    panics ([None]). *)
Definition NewRS (cfg : option Config) : option t :=
  match cfg with
  | None => None
  | Some c => Some (NewRSWithPool (Some c))
  end.

(** The constructor of the variant over a single client
    (redisstorage/redisstorage.go). *)
Definition NewRedisStorage (cfg : option Config) : t :=
  let cfg := default zeroConfig cfg in
  let tokens := if 9 <? Tokens cfg then Tokens cfg else 1 in
  let interval := if 0 <? Interval cfg then Interval cfg else 1 * Second in
  mk tokens interval 0.

(** [redis.Int64s] on a reply: a nil element reads 0; an element that
    is not a signed 64-bit integer is an error. *)
Definition Int64s (reply : list (option Z)) : option (list Z) :=
  mapM (fun o =>
          match o with
          | None => Some 0
          | Some z => if I64.in_rangeb z then Some z else None
          end) reply.

(** The reply of the script as the server sends it: numbers as
    integers, true as 1, false as nil. *)
Definition scriptReply (r : Script.reply) : option (list (option Z)) :=
  match r with
  | Script.Values m k n b =>
      Some [Some m; Some k; Some n; if b then Some 1 else None]
  | _ => None
  end.

(** [Take], with the clock reading [now]. *)
Definition Take (rs : t) (d : Redis.db) (key : string) (now : Z)
    : Redis.db * (Bucket.taken * option error) :=
  if stopped rs =? 1 then
    (d, (Bucket.mkTaken 0 0 0 false, Some ErrStopped))
  else
    let '(d', r) := Script.run d key now (tokens rs) (interval rs) in
    match scriptReply r ≫= Int64s with
    | Some [limit; remaining; next; flag] =>
        (d', (Bucket.mkTaken (U64.wrap limit) (U64.wrap remaining)
                (U64.wrap next) (flag =? 1), None))
    | _ => (d', (Bucket.mkTaken 0 0 0 false, Some ErrScript))
    end.

Definition Get (rs : t) (d : Redis.db) (key : string)
    : Z * Z * option error :=
  if stopped rs =? 1 then (0, 0, Some ErrStopped)
  else
    match Int64s (Redis.HMGET d key [fieldMaxTokens; fieldCurrentTokens]) with
    | Some [limit; remaining] => (U64.wrap limit, U64.wrap remaining, None)
    | _ => (0, 0, Some ErrGetFields)
    end.

(** [Set] writes the three fields and sends [EXPIRE] with the duration
    [24 * time.Hour] as its argument. *)
Definition Set_ (rs : t) (d : Redis.db) (key : string) (tokens interval : Z)
    : Redis.db * option error :=
  if stopped rs =? 1 then (d, Some ErrStopped)
  else
    let d1 := Redis.HSET d key
                [(fieldCurrentTokens, tokens);
                 (fieldMaxTokens, tokens);
                 (fieldInterval, interval)] in
    (Redis.EXPIRE d1 key (24 * Hour), None).

Definition Burst (rs : t) (d : Redis.db) (key : string) (tokens : Z)
    : Redis.db * option error :=
  if stopped rs =? 1 then (d, Some ErrStopped)
  else
    let d1 := Redis.HINCRBY d key fieldCurrentTokens tokens in
    (Redis.EXPIRE d1 key (24 * Hour), None).

Definition Close (rs : t) : t * option error :=
  if stopped rs =? 0 then (mk (tokens rs) (interval rs) 1, None)
  else (rs, None).

End RedisStorage.

(** ** Predicates of the properties *)

(** What the [k]-th take of a run reports when the run starts with a
    balance of [a] tokens out of [N]. *)
Definition first_interval_report (N a : Z) (k : nat)
    (r : Bucket.taken * option error) : Prop :=
  r.2 = None /\ Bucket.tokens r.1 = N
  /\ (Z.of_nat k < a ->
      Bucket.ok r.1 = true /\ Bucket.remaining r.1 = a - 1 - Z.of_nat k)
  /\ (a <= Z.of_nat k ->
      Bucket.ok r.1 = false /\ Bucket.remaining r.1 = 0).

(** The balance of a bucket within its capacity. *)
Definition bounded (b : Bucket.bucket.t) : Prop :=
  0 <= Bucket.bucket.availableTokens b <= Bucket.bucket.maxTokens b.

(** Every registered bucket has its balance within its capacity. *)
Definition Bounded (s : MemStorage.t) : Prop :=
  forall (key : string) (b : Bucket.bucket.t),
    MemStorage.buckets s !! key = Some b -> bounded b.

(** ** The sweep of the in-process storage (memstorage.go, purge)

    One pass of the body of the loop of [purge], at the clock reading
    [now]; the ticker and the stop channel that pace the loop are outside
    the model. *)

Module Sweep.

(** The instant of the last tick a bucket has seen. *)
Definition lastTime (b : Bucket.bucket.t) : Z :=
  U64.add (Bucket.bucket.startTime b)
    (U64.mul (Bucket.bucket.lastTick b)
       (U64.of_int64 (Bucket.bucket.interval b))).

(** The test under which the pass deletes a bucket. *)
Definition stale (s : MemStorage.t) (now : Z) (b : Bucket.bucket.t) : bool :=
  MemStorage.sweepMinTTL s <? U64.sub now (lastTime b).

Definition purge (s : MemStorage.t) (now : Z) : MemStorage.t :=
  MemStorage.with_buckets s
    (filter (fun kb : string * Bucket.bucket.t => stale s now kb.2 = false)
       (MemStorage.buckets s)).

End Sweep.

(** ** The HTTP middleware (package httplimiter)

    A request is what the middleware reads of it: the values
    [r.Header.Get] returns. A response is what the middleware decides: the
    rate-limit headers it sets, and either the status it fails with or the
    hand-over to the wrapped handler; the headers [http.Error] adds on its
    own and the bodies are not tracked. A count is rendered by
    [strconv.FormatUint], an instant by [time.RFC822]; the model keeps the
    number that is rendered. *)

Module HttpLimiter.

Definition HeaderRateLimitLimit : string := "X-RateLimit-Limit".
Definition HeaderRateLimitRemaining : string := "X-RateLimit-Remaining".
Definition HeaderRateLimitReset : string := "X-RateLimit-Reset".
Definition HeaderRetryAfter : string := "RetryAfter".

Definition StatusInternalServerError : Z := 500.
Definition StatusTooManyRequests : Z := 429.

Record request : Type := mkRequest {
  HeaderGet : string -> string
}.

Inductive keyError : Type :=
  | ErrNoHeaderFound
  | ErrOther.          (* any other error of a key function *)

(** What a [KeyFunc] returns. *)
Definition keyed : Type := string + keyError.

Definition KeyFunc : Type := request -> keyed.

(** [HeadersKeyFunc headers]: the value of the first listed header that
    is not empty. *)
Fixpoint HeadersKeyFunc (headers : list string) (r : request) : keyed :=
  match headers with
  | [] => inr ErrNoHeaderFound
  | header :: headers' =>
      match HeaderGet r header with
      | EmptyString => HeadersKeyFunc headers' r
      | value => inl value
      end
  end.

Inductive construction : Type :=
  | ErrNilStorage
  | ErrNilKeyFunc.

(** [NewLimiterMiddleware s f]; [None] is a nil argument. *)
Definition NewLimiterMiddleware {S : Type} (s : option S) (f : option KeyFunc)
    : (S * KeyFunc) + construction :=
  match s with
  | None => inr ErrNilStorage
  | Some s =>
      match f with
      | None => inr ErrNilKeyFunc
      | Some f => inl (s, f)
      end
  end.

Inductive headerValue : Type :=
  | Count (n : Z)        (* strconv.FormatUint(n, 10) *)
  | Instant (nanos : Z). (* time.Unix(0, nanos).UTC().Format(time.RFC822) *)

Inductive outcome : Type :=
  | Next                 (* next.ServeHTTP(w, r) *)
  | Failed (status : Z). (* http.Error(w, http.StatusText(status), status) *)

Record response : Type := mkResponse {
  headers : gmap string headerValue;
  result : outcome
}.

(** [int64(reset)]. *)
Definition int64 (u : Z) : Z := if u <? 2 ^ 63 then u else u - 2 ^ 64.

(** The handler [Handle next] returns, run on the request [r]. The
    storage is the state [s] with its [Take] method, [take]; [None] is a
    panic of [Take]. *)
Definition Handle {S : Type}
    (take : S -> string -> option (S * (Bucket.taken * option error)))
    (keyFunc : KeyFunc) (s : S) (r : request) : option (S * response) :=
  match keyFunc r with
  | inr _ => Some (s, mkResponse ∅ (Failed StatusInternalServerError))
  | inl key =>
      match take s key with
      | None => None
      | Some (s', (_, Some _)) =>
          Some (s', mkResponse ∅ (Failed StatusInternalServerError))
      | Some (s', (t, None)) =>
          let resetFormatted := Instant (int64 (Bucket.reset t)) in
          let h :=
            <[HeaderRateLimitReset := resetFormatted]>
              (<[HeaderRateLimitRemaining := Count (Bucket.remaining t)]>
                 (<[HeaderRateLimitLimit := Count (Bucket.tokens t)]> ∅)) in
          if Bucket.ok t then Some (s', mkResponse h Next)
          else
            Some (s', mkResponse (<[HeaderRetryAfter := resetFormatted]> h)
                        (Failed StatusTooManyRequests))
      end
  end.

(** The middleware over the in-process storage: one request, with the
    clock readings of its [Take]. *)
Definition HandleMem (keyFunc : KeyFunc) (s : MemStorage.t)
    (r : request) (created now : Z) : option (MemStorage.t * response) :=
  Handle (fun s key => MemStorage.Take s key created now) keyFunc s r.


End HttpLimiter.

(** ** Predicates of the further properties *)

(** No registered bucket, and not the storage itself, has a zero
    interval (as a [uint64]). *)
Definition NoZeroInterval (s : MemStorage.t) : Prop :=
  U64.of_int64 (MemStorage.interval s) <> 0
  /\ forall (key : string) (b : Bucket.bucket.t),
       MemStorage.buckets s !! key = Some b ->
       U64.of_int64 (Bucket.bucket.interval b) <> 0.

(** Capacities and balances are not negative. *)
Definition NonNegative (s : MemStorage.t) : Prop :=
  0 <= MemStorage.tokens s
  /\ forall (key : string) (b : Bucket.bucket.t),
       MemStorage.buckets s !! key = Some b ->
       0 <= Bucket.bucket.availableTokens b /\ 0 <= Bucket.bucket.maxTokens b.



(** ** The tests of the repository, on the model *)

Example tick_exact : Bucket.tick 0 Second Second = Some 1.
Proof. reflexivity. Qed.

Example tick_multiple :
  Bucket.tick 0 (10 * Second - 500 * Millisecond) Second = Some 9.
Proof. reflexivity. Qed.

Example tick_milli :
  Bucket.tick 0 (10 * Second - 500 * Millisecond) Millisecond = Some 9500.
Proof. reflexivity. Qed.

Example availableTokens_zero :
  Bucket.availableTokens 0 0 1 (F64.of_Z 1) = 0.
Proof. vm_compute. reflexivity. Qed.

Example availableTokens_one :
  Bucket.availableTokens 0 1 1 (F64.of_Z 1) = 1.
Proof. vm_compute. reflexivity. Qed.

Example availableTokens_max :
  Bucket.availableTokens 0 5 2 (F64.of_Z 1) = 2.
Proof. vm_compute. reflexivity. Qed.

(** TestMemStorage_Basic: Take, Get, Set, Get, Burst, Take. *)
Example memstorage_basic :
  let s0 := MemStorage.NewMemStorage
              (Some (MemStorage.mkConfig 10 Second Hour Hour 0)) in
  exists s1 s4,
    MemStorage.Take s0 "a" 0 1
    = Some (s1, (Bucket.mkTaken 10 9 Second true, None))
    /\ MemStorage.Get s1 "a" = (10, 9, None)
    /\ MemStorage.Get (MemStorage.Set_ s1 "a" 15 (2 * Second) 2).1 "a"
       = (15, 15, None)
    /\ MemStorage.Take
         (MemStorage.Burst (MemStorage.Set_ s1 "a" 15 (2 * Second) 2).1
            "a" 5 3).1 "a" 4 5
       = Some (s4, (Bucket.mkTaken 15 19 (2 + 2 * Second) true, None)).
Proof.
  cbv zeta. eexists _, _. split; [vm_compute; reflexivity|].
  split; [vm_compute; reflexivity|].
  split; vm_compute; reflexivity.
Qed.

(** * Properties *)

(** ** Arithmetic of the machine integers *)

Lemma modulus_pos : 0 < U64.modulus.
Proof. reflexivity. Qed.

Lemma wrap_range (z : Z) : 0 <= U64.wrap z < U64.modulus.
Proof. unfold U64.wrap. apply Z.mod_pos_bound, modulus_pos. Qed.

Lemma wrap_small (z : Z) : 0 <= z < U64.modulus -> U64.wrap z = z.
Proof. intros H. unfold U64.wrap. now apply Z.mod_small. Qed.

Lemma wrap_le (z : Z) : 0 <= z -> U64.wrap z <= z.
Proof. intros H. unfold U64.wrap. apply Z.mod_le; [exact H | exact modulus_pos]. Qed.

Lemma to_uint64_range (x : F64.float64) :
  0 <= F64.to_uint64 x < U64.modulus.
Proof.
  unfold F64.to_uint64.
  destruct (F64.trunc x) as [z|]; [|vm_compute; split; [discriminate | reflexivity]].
  destruct ((0 <=? z) && (z <? U64.modulus)) eqn:E.
  - apply andb_prop in E as [E1 E2].
    apply Z.leb_le in E1. apply Z.ltb_lt in E2. lia.
  - vm_compute; split; [discriminate | reflexivity].
Qed.

(** ** The bucket *)

Lemma availableTokens_min (lastTick currentTick max : Z) (fillRate : F64.float64) :
  Bucket.availableTokens lastTick currentTick max fillRate
  = Z.min max
      (F64.to_uint64
         (F64.mul (F64.of_Z (U64.sub currentTick lastTick)) fillRate)).
Proof.
  unfold Bucket.availableTokens. cbv zeta.
  destruct (Z.ltb_spec max
    (F64.to_uint64 (F64.mul (F64.of_Z (U64.sub currentTick lastTick)) fillRate)));
    lia.
Qed.

Lemma availableTokens_bounds (lastTick currentTick max : Z) (fillRate : F64.float64) :
  0 <= max ->
  0 <= Bucket.availableTokens lastTick currentTick max fillRate <= max.
Proof.
  intros Hmax. rewrite availableTokens_min.
  pose proof (to_uint64_range
    (F64.mul (F64.of_Z (U64.sub currentTick lastTick)) fillRate)).
  lia.
Qed.

(** The refill rule of the in-process bucket: due exactly when the
    current tick exceeds [lastTick]. *)
Lemma refill_due (b : Bucket.bucket.t) (currentTick : Z) :
  Bucket.bucket.lastTick b < currentTick ->
  Bucket.bucket.availableTokens (Bucket.refill b currentTick)
  = Z.min (Bucket.bucket.maxTokens b)
      (F64.to_uint64
         (F64.mul
            (F64.of_Z (U64.sub currentTick (Bucket.bucket.lastTick b)))
            (Bucket.bucket.fillRate b)))
  /\ Bucket.bucket.lastTick (Bucket.refill b currentTick) = currentTick.
Proof.
  intros H. unfold Bucket.refill.
  destruct (Z.ltb_spec (Bucket.bucket.lastTick b) currentTick); [|lia].
  cbn. split; [apply availableTokens_min | reflexivity].
Qed.

Lemma refill_not_due (b : Bucket.bucket.t) (currentTick : Z) :
  currentTick <= Bucket.bucket.lastTick b ->
  Bucket.refill b currentTick = b.
Proof.
  intros H. unfold Bucket.refill.
  destruct (Z.ltb_spec (Bucket.bucket.lastTick b) currentTick); [lia|reflexivity].
Qed.

Lemma refill_frame (b : Bucket.bucket.t) (currentTick : Z) :
  Bucket.bucket.startTime (Bucket.refill b currentTick) = Bucket.bucket.startTime b
  /\ Bucket.bucket.maxTokens (Bucket.refill b currentTick) = Bucket.bucket.maxTokens b
  /\ Bucket.bucket.interval (Bucket.refill b currentTick) = Bucket.bucket.interval b
  /\ Bucket.bucket.fillRate (Bucket.refill b currentTick) = Bucket.bucket.fillRate b.
Proof.
  unfold Bucket.refill.
  destruct (Bucket.bucket.lastTick b <? currentTick); cbn; auto.
Qed.

Lemma consume_frame (b : Bucket.bucket.t) :
  Bucket.bucket.startTime (Bucket.consume b).1 = Bucket.bucket.startTime b
  /\ Bucket.bucket.maxTokens (Bucket.consume b).1 = Bucket.bucket.maxTokens b
  /\ Bucket.bucket.interval (Bucket.consume b).1 = Bucket.bucket.interval b
  /\ Bucket.bucket.fillRate (Bucket.consume b).1 = Bucket.bucket.fillRate b
  /\ Bucket.bucket.lastTick (Bucket.consume b).1 = Bucket.bucket.lastTick b.
Proof.
  unfold Bucket.consume.
  destruct (0 <? Bucket.bucket.availableTokens b); cbn; auto.
Qed.

(** [take] as its three steps. *)
Lemma take_steps (b : Bucket.bucket.t) (now currentTick : Z) :
  Bucket.tick (Bucket.bucket.startTime b) now (Bucket.bucket.interval b)
  = Some currentTick ->
  Bucket.take b now
  = Some ((Bucket.consume (Bucket.refill b currentTick)).1,
          Bucket.mkTaken (Bucket.bucket.maxTokens b)
            (Bucket.consume (Bucket.refill b currentTick)).2.2
            (U64.add (Bucket.bucket.startTime b)
               (U64.mul (U64.add currentTick 1)
                  (U64.of_int64 (Bucket.bucket.interval b))))
            (Bucket.consume (Bucket.refill b currentTick)).2.1).
Proof.
  intros H. unfold Bucket.take. rewrite H.
  destruct (Bucket.consume (Bucket.refill b currentTick)) as [b2 [o r]].
  reflexivity.
Qed.

(** [take] returns unless the interval is zero (as a [uint64]). *)
Lemma take_total (b : Bucket.bucket.t) (now : Z) :
  U64.of_int64 (Bucket.bucket.interval b) <> 0 ->
  exists b' r, Bucket.take b now = Some (b', r).
Proof.
  intros H.
  assert (exists q, Bucket.tick (Bucket.bucket.startTime b) now
                      (Bucket.bucket.interval b) = Some q) as [q Hq].
  { unfold Bucket.tick. cbv zeta.
    destruct (Z.eqb_spec (U64.of_int64 (Bucket.bucket.interval b)) 0);
      [contradiction | eauto]. }
  rewrite (take_steps _ _ _ Hq). eauto.
Qed.

(** ** The reset time of [take] *)

Section ResetTime.

Variables (start interval : Z).
Hypothesis interval_pos : 0 < interval <= I64.max_int.
Hypothesis start_nonneg : 0 <= start.

Lemma tick_exact_quotient (now : Z) :
  start <= now <= I64.max_int ->
  Bucket.tick start now interval = Some ((now - start) / interval).
Proof using interval_pos start_nonneg.
  intros Hnow. unfold Bucket.tick, U64.of_int64, U64.sub, I64.max_int in *.
  cbv zeta.
  rewrite !wrap_small by (unfold U64.modulus; lia).
  destruct (Z.eqb_spec interval 0); [lia | reflexivity].
Qed.

Lemma quotient_bounds (now : Z) :
  start <= now ->
  0 <= (now - start) / interval
  /\ ((now - start) / interval) * interval <= now - start
  /\ now - start < ((now - start) / interval + 1) * interval.
Proof using interval_pos.
  intros Hnow.
  assert (0 < interval) as Hi by lia.
  pose proof (Z.div_pos (now - start) interval ltac:(lia) Hi).
  pose proof (Z.mul_div_le (now - start) interval Hi).
  pose proof (Z.mul_succ_div_gt (now - start) interval Hi).
  lia.
Qed.



End ResetTime.


Lemma reset_wrapped (start q interval : Z) :
  U64.add start (U64.mul (U64.add q 1) (U64.of_int64 interval))
  = U64.wrap (start + (q + 1) * interval).
Proof.
  unfold U64.add, U64.mul, U64.of_int64, U64.wrap.
  assert (U64.modulus <> 0) as Hm by (vm_compute; discriminate).
  rewrite Z.mul_mod_idemp_l, Z.mul_mod_idemp_r by exact Hm.
  now rewrite Z.add_mod_idemp_r by exact Hm.
Qed.

(** The reset of [take] depends on the start time, the interval and the
    clock reading alone. *)
Lemma take_reset_wrapped (b : Bucket.bucket.t) (now q : Z) :
  Bucket.tick (Bucket.bucket.startTime b) now (Bucket.bucket.interval b)
  = Some q ->
  exists b' r,
    Bucket.take b now = Some (b', r)
    /\ Bucket.reset r
       = U64.wrap (Bucket.bucket.startTime b
                   + (q + 1) * Bucket.bucket.interval b).
Proof.
  intros Hq. rewrite (take_steps _ _ _ Hq).
  eexists _, _. split; [reflexivity|]. cbn. apply reset_wrapped.
Qed.



(** C5, as stated, fails outside that range, where the 64-bit arithmetic
    of [take] wraps around. At a reading one nanosecond before the start
    time (the wall clock stepped back) the difference wraps, and the reset,
    104, is neither the start time plus the wrapped tick plus one intervals
    nor a boundary of the bucket's time line. With an interval of [2 ^ 62]
    nanoseconds and readings [now1 <= now2] around [3 * 2 ^ 62] the second
    sum reaches [2 ^ 64]: the second reset is 0, below the first. *)
Lemma take_reset_wraps :
  (let b := Bucket.newBucket 100 5 10 in
   exists b1 r1 q,
     Bucket.take b 99 = Some (b1, r1)
     /\ Bucket.tick 100 99 10 = Some q
     /\ Bucket.reset r1 = 104
     /\ Bucket.reset r1 <> 100 + (q + 1) * 10
     /\ Bucket.reset r1 <> 100 + ((99 - 100) / 10 + 1) * 10)
  /\ (let b := Bucket.newBucket 0 5 (2 ^ 62) in
      let now1 := 3 * 2 ^ 62 - 1 in
      let now2 := 3 * 2 ^ 62 in
      exists b1 r1 b2 r2,
        Bucket.take b now1 = Some (b1, r1)
        /\ Bucket.take b1 now2 = Some (b2, r2)
        /\ now1 <= now2
        /\ Bucket.reset r1 = 3 * 2 ^ 62
        /\ Bucket.reset r2 = 0
        /\ ~ Bucket.reset r1 <= Bucket.reset r2).
Proof.
  cbv zeta. split.
  - eexists _, _, _. split; [vm_compute; reflexivity|].
    split; [vm_compute; reflexivity|].
    split; [reflexivity|]. split; vm_compute; discriminate.
  - eexists _, _, _, _. split; [vm_compute; reflexivity|].
    split; [vm_compute; reflexivity|].
    split; [vm_compute; discriminate|].
    split; [reflexivity|]. split; [reflexivity|].
    vm_compute. intros H. apply H. reflexivity.
Qed.

(** ** Sequential takes within the first interval *)

Lemma consume_positive (b : Bucket.bucket.t) :
  1 <= Bucket.bucket.availableTokens b < U64.modulus ->
  Bucket.consume b
  = (Bucket.bucket.mk (Bucket.bucket.startTime b) (Bucket.bucket.maxTokens b)
       (Bucket.bucket.interval b) (Bucket.bucket.fillRate b)
       (Bucket.bucket.availableTokens b - 1) (Bucket.bucket.lastTick b),
     (true, Bucket.bucket.availableTokens b - 1)).
Proof.
  intros H. unfold Bucket.consume.
  destruct (Z.ltb_spec 0 (Bucket.bucket.availableTokens b)); [|lia].
  unfold U64.sub. rewrite wrap_small by lia. reflexivity.
Qed.

Lemma consume_empty (b : Bucket.bucket.t) :
  Bucket.bucket.availableTokens b <= 0 ->
  Bucket.consume b = (b, (false, 0)).
Proof.
  intros H. unfold Bucket.consume.
  destruct (Z.ltb_spec 0 (Bucket.bucket.availableTokens b)); [lia|reflexivity].
Qed.

(** One take, in tick 0, from a bucket that has seen no later tick. *)
Lemma takeFrom_first_interval (s : MemStorage.t) (key : string)
    (b : Bucket.bucket.t) (now a : Z) :
  Bucket.bucket.lastTick b = 0 ->
  Bucket.bucket.availableTokens b = a -> 0 <= a < U64.modulus ->
  Bucket.tick (Bucket.bucket.startTime b) now (Bucket.bucket.interval b)
  = Some 0 ->
  exists s1 b' r,
    MemStorage.takeFrom s key b now = Some (s1, (r, None))
    /\ MemStorage.stopped s1 = MemStorage.stopped s
    /\ MemStorage.buckets s1 !! key = Some b'
    /\ Bucket.bucket.lastTick b' = 0
    /\ Bucket.bucket.startTime b' = Bucket.bucket.startTime b
    /\ Bucket.bucket.interval b' = Bucket.bucket.interval b
    /\ Bucket.bucket.maxTokens b' = Bucket.bucket.maxTokens b
    /\ Bucket.tokens r = Bucket.bucket.maxTokens b
    /\ (0 < a ->
        Bucket.ok r = true /\ Bucket.remaining r = a - 1
        /\ Bucket.bucket.availableTokens b' = a - 1)
    /\ (a = 0 ->
        Bucket.ok r = false /\ Bucket.remaining r = 0
        /\ Bucket.bucket.availableTokens b' = 0).
Proof.
  intros Hl Ha Hr Ht.
  unfold MemStorage.takeFrom. rewrite (take_steps _ _ _ Ht).
  rewrite refill_not_due by lia.
  eexists _, _, _. split; [reflexivity|]. cbn.
  split; [reflexivity|]. rewrite lookup_insert_eq.
  split; [reflexivity|].
  destruct (Z.eq_dec a 0) as [->|Hne].
  - rewrite consume_empty by lia. cbn. repeat split; auto; lia.
  - rewrite consume_positive by lia. cbn. repeat split; auto; lia.
Qed.

Lemma Take_registered (s : MemStorage.t) (key : string)
    (b : Bucket.bucket.t) (created now : Z) :
  MemStorage.stopped s <> 1 ->
  MemStorage.buckets s !! key = Some b ->
  MemStorage.Take s key created now = MemStorage.takeFrom s key b now.
Proof.
  intros Hs Hb. unfold MemStorage.Take.
  destruct (Z.eqb_spec (MemStorage.stopped s) 1); [contradiction|].
  now rewrite Hb.
Qed.

Lemma Take_fresh (s : MemStorage.t) (key : string) (created now : Z) :
  MemStorage.stopped s <> 1 ->
  MemStorage.buckets s !! key = None ->
  MemStorage.Take s key created now
  = MemStorage.takeFrom s key
      (Bucket.newBucket created (MemStorage.tokens s) (MemStorage.interval s))
      now.
Proof.
  intros Hs Hb. unfold MemStorage.Take.
  destruct (Z.eqb_spec (MemStorage.stopped s) 1); [contradiction|].
  now rewrite Hb.
Qed.

Lemma Takes_first_interval (key : string) (N start iv : Z)
    (clock : list (Z * Z)) :
  forall (s : MemStorage.t) (b : Bucket.bucket.t) (a : Z),
    MemStorage.stopped s <> 1 ->
    MemStorage.buckets s !! key = Some b ->
    Bucket.bucket.lastTick b = 0 ->
    Bucket.bucket.startTime b = start ->
    Bucket.bucket.interval b = iv ->
    Bucket.bucket.maxTokens b = N ->
    Bucket.bucket.availableTokens b = a -> 0 <= a < U64.modulus ->
    Forall (fun c => Bucket.tick start c.2 iv = Some 0) clock ->
    exists s' rs,
      MemStorage.Takes s key clock = Some (s', rs)
      /\ length rs = length clock
      /\ forall (k : nat) r, rs !! k = Some r -> first_interval_report N a k r.
Proof.
  induction clock as [|[created now] clock IH];
    intros s b a Hs Hb Hl Hst Hiv HN Ha Hr Hc.
  - exists s, []. split; [reflexivity|]. split; [reflexivity|].
    intros k r Hk. destruct k; discriminate.
  - apply Forall_cons in Hc as [Hnow Hc]. cbn in Hnow.
    destruct (takeFrom_first_interval s key b now a Hl Ha Hr)
      as (s1 & b' & r & HT & Hs1 & Hb' & Hl' & Hst' & Hiv' & HN' & Hlim & Hpos & Hzero);
      [rewrite Hst, Hiv; exact Hnow|].
    assert (0 <= Bucket.bucket.availableTokens b' < U64.modulus
            /\ (0 < a -> Bucket.bucket.availableTokens b' = a - 1)
            /\ (a = 0 -> Bucket.bucket.availableTokens b' = 0)) as (Hr' & Ha1 & Ha0).
    { destruct (Z.eq_dec a 0) as [E|E].
      - destruct (Hzero E) as (_ & _ & ->). lia.
      - destruct (Hpos ltac:(lia)) as (_ & _ & ->). lia. }
    destruct (IH s1 b' (Bucket.bucket.availableTokens b'))
      as (s2 & rs & HTs & Hlen & Hrs); try congruence; auto.
    exists s2, ((r, None) :: rs).
    cbn [MemStorage.Takes].
    rewrite (Take_registered s key b created now Hs Hb), HT, HTs.
    split; [reflexivity|]. split; [cbn; now rewrite Hlen|].
    intros [|k] r' Hk; cbn in Hk.
    + injection Hk as <-. unfold first_interval_report. cbn.
      split; [reflexivity|]. split; [congruence|]. split.
      * intros Hk0. destruct (Hpos Hk0) as (-> & -> & _). split; [reflexivity|lia].
      * intros Hk0. destruct (Hzero ltac:(lia)) as (-> & -> & _). split; reflexivity.
    + specialize (Hrs k r' Hk). unfold first_interval_report in *.
      destruct Hrs as (He & Hlim' & Hlt & Hge).
      split; [exact He|]. split; [exact Hlim'|]. split.
      * intros Hk1. rewrite Ha1 in Hlt by lia.
        destruct Hlt as [-> ->]; [lia|]. split; [reflexivity|lia].
      * intros Hk1. apply Hge.
        destruct (Z.eq_dec a 0) as [E|E]; [rewrite Ha0 by exact E|rewrite Ha1 by lia]; lia.
Qed.

(** C3. On a storage that is not stopped and has capacity [N >= 1], a
    run of sequential [Take] calls on an absent key, all within the first
    interval of the bucket the first call creates (tick 0), returns: its
    [k]-th result (from 0) has no error and limit [N]; for [k < N] it has
    [ok = true] and [remaining = N - 1 - k]; from [k = N] on it has
    [ok = false] and [remaining = 0]. *)
Theorem fresh_key_first_interval (s : MemStorage.t) (key : string)
    (N start now : Z) (rest : list (Z * Z)) :
  MemStorage.stopped s <> 1 ->
  MemStorage.buckets s !! key = None ->
  MemStorage.tokens s = N -> 1 <= N < U64.modulus ->
  Forall (fun c => Bucket.tick start c.2 (MemStorage.interval s) = Some 0)
    ((start, now) :: rest) ->
  exists s' rs,
    MemStorage.Takes s key ((start, now) :: rest) = Some (s', rs)
    /\ length rs = length ((start, now) :: rest)
    /\ forall (k : nat) r, rs !! k = Some r ->
         r.2 = None /\ Bucket.tokens r.1 = N
         /\ (Z.of_nat k < N ->
             Bucket.ok r.1 = true
             /\ Bucket.remaining r.1 = N - 1 - Z.of_nat k)
         /\ (N <= Z.of_nat k ->
             Bucket.ok r.1 = false /\ Bucket.remaining r.1 = 0).
Proof.
  intros Hs Habs HN HNr Hc.
  set (b := Bucket.newBucket start (MemStorage.tokens s) (MemStorage.interval s)).
  set (s0 := MemStorage.with_buckets s (<[key := b]> (MemStorage.buckets s))).
  assert (MemStorage.buckets s0 !! key = Some b) as Hb
    by (subst s0; cbn; apply lookup_insert_eq).
  destruct (Takes_first_interval key N start (MemStorage.interval s)
              ((start, now) :: rest) s0 b N Hs Hb eq_refl eq_refl eq_refl HN HN
              ltac:(lia) Hc)
    as (s' & rs & HT & Hlen & Hrs).
  exists s', rs. split; [|split; [exact Hlen | exact Hrs]].
  rewrite <- HT. cbn [MemStorage.Takes].
  rewrite (Take_fresh s key start now Hs Habs).
  rewrite (Take_registered s0 key b start now Hs Hb).
  fold b. unfold MemStorage.takeFrom.
  destruct (Bucket.take b now) as [[b' r]|]; [|reflexivity].
  subst s0. unfold MemStorage.with_buckets. cbn.
  rewrite insert_insert_eq. reflexivity.
Qed.

Lemma fresh_key_first_interval_witness :
  exists s' rs,
    MemStorage.Takes
      (MemStorage.NewMemStorage
         (Some (MemStorage.mkConfig 2 Second Hour Hour 0)))
      "a" [(5, 5); (6, 6); (7, 7); (8, 8)] = Some (s', rs)
    /\ length rs = 4%nat
    /\ forall (k : nat) r, rs !! k = Some r ->
         r.2 = None /\ Bucket.tokens r.1 = 2
         /\ (Z.of_nat k < 2 ->
             Bucket.ok r.1 = true
             /\ Bucket.remaining r.1 = 2 - 1 - Z.of_nat k)
         /\ (2 <= Z.of_nat k ->
             Bucket.ok r.1 = false /\ Bucket.remaining r.1 = 0).
Proof.
  apply (fresh_key_first_interval
           (MemStorage.NewMemStorage
              (Some (MemStorage.mkConfig 2 Second Hour Hour 0)))
           "a" 2 5 5 [(6, 6); (7, 7); (8, 8)]).
  - vm_compute. discriminate.
  - reflexivity.
  - reflexivity.
  - vm_compute. split; [discriminate | reflexivity].
  - repeat constructor.
Defined.

(** ** The balance and the capacity *)

Lemma newBucket_bounded (now tokens interval : Z) :
  0 <= tokens -> bounded (Bucket.newBucket now tokens interval).
Proof. intros H. unfold bounded. cbn. lia. Qed.

Lemma refill_bounded (b : Bucket.bucket.t) (currentTick : Z) :
  bounded b -> bounded (Bucket.refill b currentTick).
Proof.
  unfold bounded, Bucket.refill. intros H.
  destruct (Bucket.bucket.lastTick b <? currentTick); [|exact H].
  cbn. apply availableTokens_bounds. lia.
Qed.

Lemma consume_bounded (b : Bucket.bucket.t) :
  bounded b -> bounded (Bucket.consume b).1.
Proof.
  unfold bounded, Bucket.consume. intros H.
  destruct (Z.ltb_spec 0 (Bucket.bucket.availableTokens b)); [|exact H].
  cbn. unfold U64.sub.
  pose proof (wrap_range (Bucket.bucket.availableTokens b - 1)).
  pose proof (wrap_le (Bucket.bucket.availableTokens b - 1) ltac:(lia)).
  lia.
Qed.

Lemma take_bounded (b b' : Bucket.bucket.t) (now : Z) (r : Bucket.taken) :
  bounded b -> Bucket.take b now = Some (b', r) -> bounded b'.
Proof.
  intros Hb. unfold Bucket.take.
  destruct (Bucket.tick _ _ _) as [q|]; [|discriminate].
  pose proof (consume_bounded _ (refill_bounded b q Hb)) as H.
  destruct (Bucket.consume (Bucket.refill b q)) as [b2 [o rem]].
  intros [= <- _]. exact H.
Qed.

Lemma Bounded_insert (s : MemStorage.t) (key : string) (b : Bucket.bucket.t) :
  Bounded s -> bounded b ->
  Bounded (MemStorage.with_buckets s (<[key := b]> (MemStorage.buckets s))).
Proof.
  intros Hs Hb key' b'. cbn. rewrite lookup_insert.
  destruct (decide (key = key')); [intros [= <-]; exact Hb | apply Hs].
Qed.

Lemma takeFrom_Bounded (s s' : MemStorage.t) (key : string)
    (b : Bucket.bucket.t) (now : Z) (r : Bucket.taken * option error) :
  Bounded s -> bounded b ->
  MemStorage.takeFrom s key b now = Some (s', r) -> Bounded s'.
Proof.
  intros Hs Hb. unfold MemStorage.takeFrom.
  destruct (Bucket.take b now) as [[b' t]|] eqn:E; [|discriminate].
  intros [= <- _]. apply Bounded_insert; [exact Hs|].
  exact (take_bounded _ _ _ _ Hb E).
Qed.

Lemma Take_Bounded (s s' : MemStorage.t) (key : string) (created now : Z)
    (r : Bucket.taken * option error) :
  Bounded s -> 0 <= MemStorage.tokens s ->
  MemStorage.Take s key created now = Some (s', r) -> Bounded s'.
Proof.
  intros Hs Ht. unfold MemStorage.Take.
  destruct (MemStorage.stopped s =? 1); [intros [= <- _]; exact Hs|].
  destruct (MemStorage.buckets s !! key) as [b|] eqn:E.
  - apply takeFrom_Bounded; [exact Hs | exact (Hs _ _ E)].
  - apply takeFrom_Bounded; [exact Hs | now apply newBucket_bounded].
Qed.

Lemma Get_Bounded (s : MemStorage.t) (key : string) (l r : Z)
    (e : option error) :
  Bounded s -> MemStorage.Get s key = (l, r, e) -> 0 <= r <= l.
Proof.
  intros Hs. unfold MemStorage.Get.
  destruct (MemStorage.stopped s =? 1); [intros [= <- <- _]; lia|].
  destruct (MemStorage.buckets s !! key) as [b|] eqn:E.
  - unfold Bucket.get. intros [= <- <- _]. exact (Hs _ _ E).
  - intros [= <- <- _]. lia.
Qed.

Lemma Set_Bounded (s : MemStorage.t) (key : string) (tokens interval now : Z) :
  Bounded s -> 0 <= tokens ->
  Bounded (MemStorage.Set_ s key tokens interval now).1.
Proof.
  intros Hs Ht. cbn. apply Bounded_insert; [exact Hs|].
  now apply newBucket_bounded.
Qed.

Lemma Burst_absent_Bounded (s : MemStorage.t) (key : string) (tokens now : Z) :
  Bounded s -> MemStorage.buckets s !! key = None ->
  Bounded (MemStorage.Burst s key tokens now).1.
Proof.
  intros Hs Habs. unfold MemStorage.Burst. rewrite Habs. cbn.
  apply Bounded_insert; [exact Hs|].
  apply newBucket_bounded. unfold U64.add.
  apply (wrap_range (MemStorage.tokens s + tokens)).
Qed.

Lemma Burst_registered (s : MemStorage.t) (key : string) (tokens now : Z)
    (b : Bucket.bucket.t) :
  MemStorage.buckets s !! key = Some b ->
  MemStorage.Burst s key tokens now
  = (MemStorage.with_buckets s
       (<[key := Bucket.bucket.mk (Bucket.bucket.startTime b)
                   (Bucket.bucket.maxTokens b) (Bucket.bucket.interval b)
                   (Bucket.bucket.fillRate b)
                   (U64.add (Bucket.bucket.availableTokens b) tokens)
                   (Bucket.bucket.lastTick b)]> (MemStorage.buckets s)),
     None).
Proof. intros Hb. unfold MemStorage.Burst. now rewrite Hb. Qed.

(** C7, as the code has it. The balance of every registered bucket stays
    within [0 .. maxTokens] through [Take] (which also creates buckets with
    a full balance), [Set] and a [Burst] that creates the bucket, and [Get]
    then reports [0 <= remaining <= limit]; a [Burst] on a registered
    bucket keeps the balance non-negative and the capacity unchanged, and
    sets the balance to the old balance plus the burst (on 64 bits) whatever
    the capacity is. *)
Theorem balance_within_capacity (s : MemStorage.t) (key : string) :
  Bounded s -> 0 <= MemStorage.tokens s ->
  (forall created now s' r,
      MemStorage.Take s key created now = Some (s', r) -> Bounded s')
  /\ (forall l r e, MemStorage.Get s key = (l, r, e) -> 0 <= r <= l)
  /\ (forall tokens interval now,
        0 <= tokens -> Bounded (MemStorage.Set_ s key tokens interval now).1)
  /\ (forall tokens now,
        MemStorage.buckets s !! key = None ->
        Bounded (MemStorage.Burst s key tokens now).1)
  /\ (forall tokens now b,
        MemStorage.buckets s !! key = Some b ->
        exists b',
          MemStorage.buckets (MemStorage.Burst s key tokens now).1 !! key
          = Some b'
          /\ Bucket.bucket.maxTokens b' = Bucket.bucket.maxTokens b
          /\ Bucket.bucket.availableTokens b'
             = U64.add (Bucket.bucket.availableTokens b) tokens
          /\ 0 <= Bucket.bucket.availableTokens b').
Proof.
  intros Hs Ht. repeat apply conj.
  - intros created now s' r. now apply Take_Bounded.
  - intros l r e. now apply Get_Bounded.
  - intros tokens interval now. now apply Set_Bounded.
  - intros tokens now. now apply Burst_absent_Bounded.
  - intros tokens now b Hb. rewrite (Burst_registered _ _ _ _ _ Hb). cbn.
    rewrite lookup_insert_eq. eexists. split; [reflexivity|]. cbn.
    repeat split. unfold U64.add. apply wrap_range.
Qed.

Lemma Bounded_empty (s : MemStorage.t) :
  MemStorage.buckets s = ∅ -> Bounded s.
Proof. intros E key b. rewrite E, lookup_empty. discriminate. Qed.

Lemma balance_within_capacity_witness :
  let s := (MemStorage.Set_ (MemStorage.NewMemStorage None) "a" 15
              (2 * Second) 0).1 in
  (forall created now s' r,
      MemStorage.Take s "a" created now = Some (s', r) -> Bounded s')
  /\ (forall l r e, MemStorage.Get s "a" = (l, r, e) -> 0 <= r <= l)
  /\ (forall tokens interval now,
        0 <= tokens -> Bounded (MemStorage.Set_ s "a" tokens interval now).1)
  /\ (forall tokens now,
        MemStorage.buckets s !! "a" = None ->
        Bounded (MemStorage.Burst s "a" tokens now).1)
  /\ (forall tokens now b,
        MemStorage.buckets s !! "a" = Some b ->
        exists b',
          MemStorage.buckets (MemStorage.Burst s "a" tokens now).1 !! "a"
          = Some b'
          /\ Bucket.bucket.maxTokens b' = Bucket.bucket.maxTokens b
          /\ Bucket.bucket.availableTokens b'
             = U64.add (Bucket.bucket.availableTokens b) tokens
          /\ 0 <= Bucket.bucket.availableTokens b').
Proof.
  apply (balance_within_capacity
           (MemStorage.Set_ (MemStorage.NewMemStorage None) "a" 15
              (2 * Second) 0).1 "a").
  - apply Set_Bounded; [apply Bounded_empty; reflexivity | lia].
  - vm_compute. discriminate.
Defined.

(** C7, as stated, fails: after [Set] with capacity 15, a [Burst] of 5
    tokens leaves the bucket with a balance of 20 over a capacity of 15, and
    the next [Take] reports limit 15 and remaining 19. *)
Lemma Burst_exceeds_capacity :
  let s1 := (MemStorage.Set_ (MemStorage.NewMemStorage None) "a" 15
               (2 * Second) 0).1 in
  let s2 := (MemStorage.Burst s1 "a" 5 0).1 in
  Bounded s1
  /\ ~ Bounded s2
  /\ exists s3,
       MemStorage.Take s2 "a" 0 1
       = Some (s3, (Bucket.mkTaken 15 19 (2 * Second) true, None))
       /\ ~ Bounded s3.
Proof.
  cbv zeta. split; [|split].
  - apply Set_Bounded; [apply Bounded_empty; reflexivity | lia].
  - intros H.
    assert (exists b, MemStorage.buckets
              (MemStorage.Burst
                 (MemStorage.Set_ (MemStorage.NewMemStorage None) "a" 15
                    (2 * Second) 0).1 "a" 5 0).1 !! "a" = Some b
            /\ Bucket.bucket.availableTokens b = 20
            /\ Bucket.bucket.maxTokens b = 15) as (b & Hb & Ha & Hm).
    { eexists. split; [vm_compute; reflexivity|]. split; reflexivity. }
    specialize (H _ _ Hb). unfold bounded in H. lia.
  - eexists. split; [vm_compute; reflexivity|].
    intros H.
    unfold Bounded in H.
    match type of H with
    | forall key b, MemStorage.buckets ?s !! key = Some b -> _ =>
        destruct (MemStorage.buckets s !! "a") as [b|] eqn:E;
        [pose proof (H _ _ E) as Hb; vm_compute in E;
         injection E as <-; unfold bounded in Hb; cbn in Hb; lia
        | vm_compute in E; discriminate]
    end.
Qed.

(** ** Refill after one tick *)

(** The configurations of the repository's tests refill in full after
    one tick. *)
Example one_tick_refill_test_configuration :
  Bucket.bucket.availableTokens
    (Bucket.refill (Bucket.newBucket 0 10 (250 * Millisecond)) 1) = 10
  /\ Bucket.bucket.availableTokens
       (Bucket.refill (Bucket.newBucket 0 10 Second) 1) = 10.
Proof. vm_compute. split; reflexivity. Qed.

(** C1 at a failing input. A bucket of 100000 tokens per second, created
    at time 0 and left alone, is taken from at one second: the current tick
    is [lastTick + 1], the fill rate derived from the capacity and the
    interval is 10000, the refill sets the balance to 10000 and not to the
    capacity, and the take reports 9999 remaining. The same through the
    storage, after [Set]. *)
Theorem one_tick_refill_falls_short :
  let b := Bucket.newBucket 0 100000 Second in
  Bucket.tick (Bucket.bucket.startTime b) Second (Bucket.bucket.interval b)
  = Some (Bucket.bucket.lastTick b + 1)
  /\ F64.to_uint64 (Bucket.bucket.fillRate b) = 10000
  /\ Z.min (Bucket.bucket.maxTokens b)
       (F64.to_uint64 (F64.mul (F64.of_Z 1) (Bucket.bucket.fillRate b)))
     = 10000
  /\ Bucket.bucket.availableTokens (Bucket.refill b 1) = 10000
  /\ (exists b',
        Bucket.take b Second
        = Some (b', Bucket.mkTaken 100000 9999 (2 * Second) true))
  /\ (exists s',
        MemStorage.Take
          (MemStorage.Set_ (MemStorage.NewMemStorage None) "a" 100000
             Second 0).1 "a" 0 Second
        = Some (s', (Bucket.mkTaken 100000 9999 (2 * Second) true, None))).
Proof.
  cbv zeta. repeat apply conj; try (vm_compute; reflexivity).
  - eexists. vm_compute. reflexivity.
  - eexists. vm_compute. reflexivity.
Qed.

(** ** The refill of the distributed storage *)

(** On a storage that is not stopped every [Take] of the distributed
    client ends in the script error, with zero limit, remaining and reset,
    and the server state is the one of before. *)
Lemma Redis_Take_open (rs : RedisStorage.t) (d : Redis.db) (key : string)
    (now : Z) :
  RedisStorage.stopped rs <> 1 ->
  RedisStorage.Take rs d key now
  = (d, (Bucket.mkTaken 0 0 0 false, Some ErrScript)).
Proof.
  intros Hs. unfold RedisStorage.Take.
  destruct (Z.eqb_spec (RedisStorage.stopped rs) 1); [contradiction|].
  reflexivity.
Qed.

(** The guard of the refill block of the script is the guard of
    [bucket.take] with its sides exchanged: one tick after the last one it
    is false, one tick before it is true. *)
Lemma refill_guard_reversed :
  Script.refillGuard (F64.of_Z 0) (F64.of_Z 1) = false
  /\ Script.refillGuard (F64.of_Z 1) (F64.of_Z 0) = true
  /\ Bucket.bucket.lastTick (Bucket.refill (Bucket.newBucket 0 10 Second) 1)
     = 1.
Proof. vm_compute. repeat split; reflexivity. Qed.


(** ** A stopped storage *)

Lemma Mem_Take_stopped (s : MemStorage.t) (key : string) (created now : Z) :
  MemStorage.stopped s = 1 ->
  MemStorage.Take s key created now
  = Some (s, (Bucket.mkTaken 0 0 0 false, Some ErrStopped)).
Proof. intros H. unfold MemStorage.Take. now rewrite H. Qed.

Lemma Mem_Get_stopped (s : MemStorage.t) (key : string) :
  MemStorage.stopped s = 1 ->
  MemStorage.Get s key = (0, 0, Some ErrStopped).
Proof. intros H. unfold MemStorage.Get. now rewrite H. Qed.

Lemma Mem_Close_stops (s : MemStorage.t) :
  MemStorage.stopped s = 0 ->
  (MemStorage.Close s).2 = None
  /\ MemStorage.stopped (MemStorage.Close s).1 = 1
  /\ MemStorage.buckets (MemStorage.Close s).1 = ∅.
Proof. intros H. unfold MemStorage.Close. rewrite H. cbn. auto. Qed.

Lemma Redis_stopped (rs : RedisStorage.t) (d : Redis.db) (key : string) :
  RedisStorage.stopped rs = 1 ->
  (forall now,
      RedisStorage.Take rs d key now
      = (d, (Bucket.mkTaken 0 0 0 false, Some ErrStopped)))
  /\ RedisStorage.Get rs d key = (0, 0, Some ErrStopped)
  /\ (forall tokens interval,
        RedisStorage.Set_ rs d key tokens interval = (d, Some ErrStopped))
  /\ (forall tokens,
        RedisStorage.Burst rs d key tokens = (d, Some ErrStopped)).
Proof.
  intros H.
  unfold RedisStorage.Take, RedisStorage.Get, RedisStorage.Set_,
    RedisStorage.Burst.
  rewrite H. cbn. auto.
Qed.

Lemma Redis_Close_stops (rs : RedisStorage.t) :
  RedisStorage.stopped rs = 0 ->
  RedisStorage.stopped (RedisStorage.Close rs).1 = 1.
Proof. intros H. unfold RedisStorage.Close. now rewrite H. Qed.

(** C4 at a failing input. An in-process storage of 10 tokens per second
    is closed. [Take] and [Get] then fail with the stopped error, [Take]
    with zero limit, remaining and reset; [Set] and [Burst] return no error
    and register a bucket in the closed storage. *)
Theorem Set_and_Burst_after_Close :
  let s := (MemStorage.Close
              (MemStorage.NewMemStorage
                 (Some (MemStorage.mkConfig 10 Second Hour Hour 0)))).1 in
  MemStorage.stopped s = 1
  /\ MemStorage.buckets s = ∅
  /\ MemStorage.Take s "a" 0 0
     = Some (s, (Bucket.mkTaken 0 0 0 false, Some ErrStopped))
  /\ MemStorage.Get s "a" = (0, 0, Some ErrStopped)
  /\ (MemStorage.Set_ s "a" 5 Second 0).2 = None
  /\ MemStorage.buckets (MemStorage.Set_ s "a" 5 Second 0).1 !! "a"
     = Some (Bucket.newBucket 0 5 Second)
  /\ (MemStorage.Burst s "a" 5 0).2 = None
  /\ MemStorage.buckets (MemStorage.Burst s "a" 5 0).1 !! "a"
     = Some (Bucket.newBucket 0 15 Second).
Proof. vm_compute. repeat split; reflexivity. Qed.

(** ** The record layout of the distributed storage *)

(** C6 at a failing input. The client names the balance field [t], which
    is the last-tick field of the script, whose balance field is [k]. [Set]
    with 10 tokens stores the 10 under the last-tick field of the script and
    leaves its balance field unset; [Burst] adds to the same field; [Get]
    reports what that field holds as remaining. On a fresh key [Take] ends
    in the script error and persists nothing, so that the [Get] after it
    reports 0 and 0. *)
Theorem record_layout_disagrees :
  RedisStorage.fieldCurrentTokens = Script.FIELD_TICK
  /\ RedisStorage.fieldCurrentTokens <> Script.FIELD_CURRENT_TOKENS
  /\ let rs := RedisStorage.NewRSWithPool
                 (Some (RedisStorage.mkConfig 15 Second 0)) in
     let d := (RedisStorage.Set_ rs Redis.empty "a" 10 (3 * Second)).1 in
     let d' := (RedisStorage.Burst rs d "a" 5).1 in
     Redis.HGETALL d "a" !! Script.FIELD_TICK = Some 10
     /\ Redis.HGETALL d "a" !! Script.FIELD_CURRENT_TOKENS = None
     /\ RedisStorage.Get rs d "a" = (10, 10, None)
     /\ Redis.HGETALL d' "a" !! Script.FIELD_TICK = Some 15
     /\ Redis.HGETALL d' "a" !! Script.FIELD_CURRENT_TOKENS = None
     /\ RedisStorage.Get rs d' "a" = (10, 15, None)
     /\ RedisStorage.Take rs Redis.empty "a" 1000
        = (Redis.empty, (Bucket.mkTaken 0 0 0 false, Some ErrScript))
     /\ RedisStorage.Get rs (RedisStorage.Take rs Redis.empty "a" 1000).1 "a"
        = (0, 0, None).
Proof.
  split; [reflexivity|]. split; [discriminate|].
  vm_compute. repeat split; reflexivity.
Qed.

(** ** The hash commands *)

Lemma HGETALL_HSET (d : Redis.db) (key : string) (fvs : list (string * Z)) :
  Redis.HGETALL (Redis.HSET d key fvs) key
  = foldl (fun h fv => <[fv.1 := fv.2]> h) (Redis.HGETALL d key) fvs.
Proof. unfold Redis.HGETALL at 1, Redis.HSET. cbn. now rewrite lookup_insert_eq. Qed.

Lemma HGETALL_EXPIRE (d : Redis.db) (key key' : string) (seconds : Z) :
  0 < seconds ->
  Redis.HGETALL (Redis.EXPIRE d key seconds) key' = Redis.HGETALL d key'.
Proof.
  intros H. unfold Redis.EXPIRE.
  destruct (Redis.hashes d !! key); [|reflexivity].
  destruct (Z.ltb_spec 0 seconds); [reflexivity | lia].
Qed.

Lemma in_rangeb_true (z : Z) : I64.in_range z -> I64.in_rangeb z = true.
Proof.
  unfold I64.in_range, I64.in_rangeb. intros [H1 H2].
  apply andb_true_intro. split; [now apply Z.leb_le | now apply Z.leb_le].
Qed.

Lemma HGETALL_HINCRBY (d : Redis.db) (key field : string) (n : Z) :
  let old := default 0 (Redis.HGETALL d key !! field) in
  (forall f, f <> field ->
     Redis.HGETALL (Redis.HINCRBY d key field n) key !! f
     = Redis.HGETALL d key !! f)
  /\ (I64.in_range old -> I64.in_range n -> I64.in_range (old + n) ->
      Redis.HGETALL (Redis.HINCRBY d key field n) key !! field
      = Some (old + n)).
Proof.
  cbv zeta. unfold Redis.HINCRBY. split.
  - intros f Hf.
    destruct (_ && _); [|reflexivity].
    rewrite HGETALL_HSET. cbn. now rewrite lookup_insert_ne.
  - intros H1 H2 H3. rewrite !in_rangeb_true by assumption. cbn.
    rewrite HGETALL_HSET. cbn. now rewrite lookup_insert_eq.
Qed.

Lemma day_positive : 0 < 24 * Hour.
Proof. reflexivity. Qed.

(** ** Set, then Get *)

Lemma Mem_Set_Get (s : MemStorage.t) (key : string) (T D now : Z) :
  MemStorage.stopped s <> 1 ->
  (MemStorage.Set_ s key T D now).2 = None
  /\ MemStorage.Get (MemStorage.Set_ s key T D now).1 key = (T, T, None).
Proof.
  intros Hs. split; [reflexivity|].
  unfold MemStorage.Get. cbn.
  destruct (Z.eqb_spec (MemStorage.stopped s) 1); [contradiction|].
  now rewrite lookup_insert_eq.
Qed.

Lemma Redis_Set_Get (rs : RedisStorage.t) (d : Redis.db) (key : string)
    (T D : Z) :
  RedisStorage.stopped rs <> 1 ->
  0 <= T <= I64.max_int ->
  (RedisStorage.Set_ rs d key T D).2 = None
  /\ RedisStorage.Get rs (RedisStorage.Set_ rs d key T D).1 key
     = (T, T, None).
Proof.
  intros Hs HT. unfold RedisStorage.Set_, RedisStorage.Get.
  destruct (Z.eqb_spec (RedisStorage.stopped rs) 1); [contradiction|].
  split; [reflexivity|]. cbn [fst].
  unfold Redis.HMGET. rewrite HGETALL_EXPIRE by exact day_positive.
  rewrite HGETALL_HSET. cbn [foldl fst snd fmap list_fmap].
  rewrite lookup_insert_ne by discriminate.
  rewrite lookup_insert_eq.
  rewrite lookup_insert_ne by discriminate.
  rewrite lookup_insert_ne by discriminate.
  rewrite lookup_insert_eq.
  assert (I64.in_rangeb T = true) as E
    by (apply in_rangeb_true; unfold I64.in_range, I64.min_int, I64.max_int in *; lia).
  unfold RedisStorage.Int64s. cbn. rewrite E. cbn.
  unfold I64.max_int in HT.
  rewrite wrap_small by (unfold U64.modulus; lia). reflexivity.
Qed.

(** C9, as the code has it. On a storage that is not stopped, [Set]
    with capacity [T] followed by [Get] on the key returns no error, limit
    [T] and remaining [T]: in the in-process storage for every [T], in the
    distributed storage for [T] up to the largest signed 64-bit integer,
    the range [Get] decodes its reply into. *)
Theorem Set_then_Get (s : MemStorage.t) (rs : RedisStorage.t) (d : Redis.db)
    (key : string) (T D now : Z) :
  MemStorage.stopped s <> 1 ->
  RedisStorage.stopped rs <> 1 ->
  ((MemStorage.Set_ s key T D now).2 = None
   /\ MemStorage.Get (MemStorage.Set_ s key T D now).1 key = (T, T, None))
  /\ (0 <= T <= I64.max_int ->
      (RedisStorage.Set_ rs d key T D).2 = None
      /\ RedisStorage.Get rs (RedisStorage.Set_ rs d key T D).1 key
         = (T, T, None)).
Proof.
  intros Hs Hrs. split.
  - now apply Mem_Set_Get.
  - now apply Redis_Set_Get.
Qed.

Lemma Set_then_Get_witness :
  let s := MemStorage.NewMemStorage None in
  let rs := RedisStorage.NewRSWithPool None in
  ((MemStorage.Set_ s "a" 15 (2 * Second) 7).2 = None
   /\ MemStorage.Get (MemStorage.Set_ s "a" 15 (2 * Second) 7).1 "a"
      = (15, 15, None))
  /\ (RedisStorage.Set_ rs Redis.empty "a" 15 (2 * Second)).2 = None
  /\ RedisStorage.Get rs
       (RedisStorage.Set_ rs Redis.empty "a" 15 (2 * Second)).1 "a"
     = (15, 15, None).
Proof.
  cbv zeta.
  destruct (Set_then_Get (MemStorage.NewMemStorage None)
              (RedisStorage.NewRSWithPool None) Redis.empty "a" 15
              (2 * Second) 7) as [Hm Hr].
  - vm_compute. discriminate.
  - vm_compute. discriminate.
  - split; [exact Hm|]. apply Hr. vm_compute. split; discriminate.
Defined.

(** C9, as stated, fails in the distributed storage from [T = 2 ^ 63]
    on: [Set] stores the capacity and [Get] cannot decode it. *)
Lemma Redis_Set_Get_beyond_int64 :
  let rs := RedisStorage.NewRSWithPool None in
  (RedisStorage.Set_ rs Redis.empty "a" (2 ^ 63) Second).2 = None
  /\ RedisStorage.Get rs
       (RedisStorage.Set_ rs Redis.empty "a" (2 ^ 63) Second).1 "a"
     = (0, 0, Some ErrGetFields)
  /\ RedisStorage.Get rs
       (RedisStorage.Set_ rs Redis.empty "a" (2 ^ 63) Second).1 "a"
     <> (2 ^ 63, 2 ^ 63, None).
Proof. vm_compute. repeat split; discriminate. Qed.

(** ** Burst *)

Lemma Mem_Burst_then_Take (s : MemStorage.t) (key : string)
    (b : Bucket.bucket.t) (B now created t q : Z) :
  MemStorage.buckets s !! key = Some b ->
  MemStorage.stopped s <> 1 ->
  Bucket.tick (Bucket.bucket.startTime b) t (Bucket.bucket.interval b)
  = Some q ->
  q <= Bucket.bucket.lastTick b ->
  0 < Bucket.bucket.availableTokens b + B < U64.modulus ->
  exists s' r,
    MemStorage.Take (MemStorage.Burst s key B now).1 key created t
    = Some (s', (r, None))
    /\ Bucket.ok r = true
    /\ Bucket.remaining r = Bucket.bucket.availableTokens b + B - 1
    /\ Bucket.tokens r = Bucket.bucket.maxTokens b.
Proof.
  intros Hb Hs Hq Hle Hsum.
  rewrite (Burst_registered _ _ _ _ _ Hb). cbn [fst].
  set (b' := Bucket.bucket.mk _ _ _ _ _ _).
  rewrite (Take_registered _ key b' created t);
    [|exact Hs | cbn; apply lookup_insert_eq].
  unfold MemStorage.takeFrom.
  rewrite (take_steps b' t q) by exact Hq.
  rewrite refill_not_due by exact Hle.
  rewrite consume_positive
    by (subst b'; cbn; unfold U64.add; rewrite wrap_small; lia).
  eexists _, _. split; [reflexivity|]. subst b'. cbn.
  unfold U64.add. rewrite wrap_small by lia. auto.
Qed.

(** C8, as the code has it. In the in-process storage, [Burst] of [B]
    tokens on a registered bucket of balance [R] returns no error and sets
    the balance to [R + B] on 64 bits, with the start time, last tick,
    interval and capacity unchanged; when no refill is due (the current tick
    is not beyond the last tick) and [0 < R + B < 2 ^ 64], the next [Take]
    succeeds and reports [R + B - 1] remaining; on an absent key [Burst]
    registers a new bucket of capacity and balance
    [configured capacity + B] on 64 bits. In the distributed storage,
    [Burst] on a storage that is not stopped returns no error, leaves every
    other field of the record as it is and adds [B] to the field it names,
    counted from 0 when the field or the key is absent, as long as the
    values are signed 64-bit integers. *)
Theorem Burst_effect (s : MemStorage.t) (rs : RedisStorage.t) (d : Redis.db)
    (key : string) (B now : Z) :
  (forall b,
      MemStorage.buckets s !! key = Some b ->
      (MemStorage.Burst s key B now).2 = None
      /\ (exists b',
            MemStorage.buckets (MemStorage.Burst s key B now).1 !! key
            = Some b'
            /\ Bucket.bucket.availableTokens b'
               = U64.add (Bucket.bucket.availableTokens b) B
            /\ Bucket.bucket.startTime b' = Bucket.bucket.startTime b
            /\ Bucket.bucket.lastTick b' = Bucket.bucket.lastTick b
            /\ Bucket.bucket.interval b' = Bucket.bucket.interval b
            /\ Bucket.bucket.maxTokens b' = Bucket.bucket.maxTokens b)
      /\ (forall created t q,
            MemStorage.stopped s <> 1 ->
            Bucket.tick (Bucket.bucket.startTime b) t
              (Bucket.bucket.interval b) = Some q ->
            q <= Bucket.bucket.lastTick b ->
            0 < Bucket.bucket.availableTokens b + B < U64.modulus ->
            exists s' r,
              MemStorage.Take (MemStorage.Burst s key B now).1 key created t
              = Some (s', (r, None))
              /\ Bucket.ok r = true
              /\ Bucket.remaining r = Bucket.bucket.availableTokens b + B - 1
              /\ Bucket.tokens r = Bucket.bucket.maxTokens b))
  /\ (MemStorage.buckets s !! key = None ->
      (MemStorage.Burst s key B now).2 = None
      /\ MemStorage.buckets (MemStorage.Burst s key B now).1 !! key
         = Some (Bucket.newBucket now (U64.add (MemStorage.tokens s) B)
                   (MemStorage.interval s)))
  /\ (RedisStorage.stopped rs <> 1 ->
      let d' := (RedisStorage.Burst rs d key B).1 in
      let old :=
        default 0 (Redis.HGETALL d key !! RedisStorage.fieldCurrentTokens) in
      (RedisStorage.Burst rs d key B).2 = None
      /\ (forall f, f <> RedisStorage.fieldCurrentTokens ->
            Redis.HGETALL d' key !! f = Redis.HGETALL d key !! f)
      /\ (I64.in_range old -> I64.in_range B -> I64.in_range (old + B) ->
          Redis.HGETALL d' key !! RedisStorage.fieldCurrentTokens
          = Some (old + B))).
Proof.
  split; [|split].
  - intros b Hb. split; [|split].
    + now rewrite (Burst_registered _ _ _ _ _ Hb).
    + rewrite (Burst_registered _ _ _ _ _ Hb). cbn.
      rewrite lookup_insert_eq. eexists. split; [reflexivity|]. cbn. auto.
    + intros created t q Hs Hq Hle Hsum.
      now apply (Mem_Burst_then_Take s key b B now created t q).
  - intros Habs. unfold MemStorage.Burst. rewrite Habs. cbn.
    split; [reflexivity | apply lookup_insert_eq].
  - intros Hrs. cbv zeta. unfold RedisStorage.Burst.
    destruct (Z.eqb_spec (RedisStorage.stopped rs) 1); [contradiction|].
    cbn [fst snd]. split; [reflexivity|].
    destruct (HGETALL_HINCRBY d key RedisStorage.fieldCurrentTokens B)
      as [Hframe Hsum].
    split.
    + intros f Hf. rewrite HGETALL_EXPIRE by exact day_positive.
      now apply Hframe.
    + intros H1 H2 H3. rewrite HGETALL_EXPIRE by exact day_positive.
      now apply Hsum.
Qed.

Lemma Burst_effect_witness :
  let s := (MemStorage.Set_ (MemStorage.NewMemStorage None) "a" 15
              (2 * Second) 0).1 in
  let rs := RedisStorage.NewRSWithPool None in
  let d := (RedisStorage.Set_ rs Redis.empty "a" 10 (3 * Second)).1 in
  (exists s' r,
      MemStorage.Take (MemStorage.Burst s "a" 5 1).1 "a" 2 3
      = Some (s', (r, None))
      /\ Bucket.ok r = true
      /\ Bucket.remaining r = 15 + 5 - 1
      /\ Bucket.tokens r = 15)
  /\ Redis.HGETALL (RedisStorage.Burst rs d "a" 5).1 "a"
     !! RedisStorage.fieldCurrentTokens = Some (10 + 5).
Proof.
  cbv zeta.
  destruct (Burst_effect
              (MemStorage.Set_ (MemStorage.NewMemStorage None) "a" 15
                 (2 * Second) 0).1
              (RedisStorage.NewRSWithPool None)
              (RedisStorage.Set_ (RedisStorage.NewRSWithPool None)
                 Redis.empty "a" 10 (3 * Second)).1
              "a" 5 1) as (Hm & _ & Hr).
  split.
  - destruct (Hm (Bucket.newBucket 0 15 (2 * Second)) eq_refl)
      as (_ & _ & HT).
    apply (HT 2 3 0).
    + vm_compute. discriminate.
    + reflexivity.
    + vm_compute. discriminate.
    + vm_compute. split; reflexivity.
  - destruct (Hr ltac:(vm_compute; discriminate)) as (_ & _ & Hsum).
    apply Hsum; vm_compute; split; discriminate.
Defined.

(** C8, as stated, fails. In the in-process storage the sum wraps
    around: a burst of [2 ^ 64 - 1] on a balance of 1 leaves a balance of 0,
    and the next take is denied. In the distributed storage a burst on an
    absent key creates a record that holds the burst alone, with no
    capacity: [Get] reports limit 0 and remaining 5 where the configured
    capacity is 10. *)
Lemma Burst_wraps_and_creates_no_capacity :
  (let s1 := (MemStorage.Set_ (MemStorage.NewMemStorage None) "a" 1
                Second 0).1 in
   let s2 := (MemStorage.Burst s1 "a" (2 ^ 64 - 1) 0).1 in
   MemStorage.Get s1 "a" = (1, 1, None)
   /\ MemStorage.Get s2 "a" = (1, 0, None)
   /\ exists s3,
        MemStorage.Take s2 "a" 0 0
        = Some (s3, (Bucket.mkTaken 1 0 Second false, None)))
  /\ (let rs := RedisStorage.NewRSWithPool
                  (Some (RedisStorage.mkConfig 10 Second 0)) in
      let d := (RedisStorage.Burst rs Redis.empty "a" 5).1 in
      RedisStorage.tokens rs = 10
      /\ Redis.HGETALL d "a" = {[ RedisStorage.fieldCurrentTokens := 5 ]}
      /\ RedisStorage.Get rs d "a" = (0, 5, None)
      /\ RedisStorage.Get rs d "a" <> (15, 15, None)).
Proof.
  cbv zeta. split.
  - split; [vm_compute; reflexivity|]. split; [vm_compute; reflexivity|].
    eexists. vm_compute. reflexivity.
  - split; [reflexivity|]. split; [vm_compute; reflexivity|].
    split; [vm_compute; reflexivity | vm_compute; discriminate].
Qed.

(** ** The constructors *)

(** C10. The constructors of the distributed storage replace a
    configured capacity from 1 to 9 by the default of 1 and keep one above
    9; the constructor of the in-process storage keeps every positive
    capacity. *)
Theorem constructors_capacity (small large : RedisStorage.Config)
    (mem : MemStorage.Config) :
  1 <= RedisStorage.Tokens small <= 9 ->
  9 < RedisStorage.Tokens large ->
  0 < MemStorage.Tokens mem ->
  (RedisStorage.tokens (RedisStorage.NewRSWithPool (Some small)) = 1
   /\ RedisStorage.tokens <$> RedisStorage.NewRS (Some small) = Some 1
   /\ RedisStorage.tokens (RedisStorage.NewRedisStorage (Some small)) = 1)
  /\ (RedisStorage.tokens (RedisStorage.NewRSWithPool (Some large))
      = RedisStorage.Tokens large
      /\ RedisStorage.tokens <$> RedisStorage.NewRS (Some large)
         = Some (RedisStorage.Tokens large)
      /\ RedisStorage.tokens (RedisStorage.NewRedisStorage (Some large))
         = RedisStorage.Tokens large)
  /\ MemStorage.tokens (MemStorage.NewMemStorage (Some mem))
     = MemStorage.Tokens mem.
Proof.
  intros Hs Hl Hm.
  unfold RedisStorage.NewRS, RedisStorage.NewRSWithPool,
    RedisStorage.NewRedisStorage, MemStorage.NewMemStorage.
  cbn.
  destruct (Z.ltb_spec 9 (RedisStorage.Tokens small)); [lia|].
  destruct (Z.ltb_spec 9 (RedisStorage.Tokens large)); [|lia].
  destruct (Z.ltb_spec 0 (MemStorage.Tokens mem)); [|lia].
  repeat split.
Qed.

Lemma constructors_capacity_witness :
  (RedisStorage.tokens
     (RedisStorage.NewRSWithPool (Some (RedisStorage.mkConfig 5 Second 0)))
   = 1
   /\ RedisStorage.tokens
        <$> RedisStorage.NewRS (Some (RedisStorage.mkConfig 5 Second 0))
      = Some 1
   /\ RedisStorage.tokens
        (RedisStorage.NewRedisStorage
           (Some (RedisStorage.mkConfig 5 Second 0))) = 1)
  /\ (RedisStorage.tokens
        (RedisStorage.NewRSWithPool
           (Some (RedisStorage.mkConfig 15 Second 0))) = 15
      /\ RedisStorage.tokens
           <$> RedisStorage.NewRS (Some (RedisStorage.mkConfig 15 Second 0))
         = Some 15
      /\ RedisStorage.tokens
           (RedisStorage.NewRedisStorage
              (Some (RedisStorage.mkConfig 15 Second 0))) = 15)
  /\ MemStorage.tokens
       (MemStorage.NewMemStorage
          (Some (MemStorage.mkConfig 5 Second Hour Hour 0))) = 5.
Proof.
  apply (constructors_capacity (RedisStorage.mkConfig 5 Second 0)
           (RedisStorage.mkConfig 15 Second 0)
           (MemStorage.mkConfig 5 Second Hour Hour 0)).
  - vm_compute. split; discriminate.
  - reflexivity.
  - reflexivity.
Defined.

(** * Further properties of the code *)

(** ** The bucket across takes *)

Lemma refill_lastTick (b : Bucket.bucket.t) (q : Z) :
  Bucket.bucket.lastTick (Bucket.refill b q)
  = Z.max (Bucket.bucket.lastTick b) q.
Proof.
  unfold Bucket.refill.
  destruct (Z.ltb_spec (Bucket.bucket.lastTick b) q); cbn; lia.
Qed.

(** X1. A take never moves a bucket on its time line: the start time,
    the capacity, the interval and the fill rate are those of before, the
    limit it reports is the capacity, and the last tick becomes the larger
    of the old last tick and the tick of the clock reading, so it never
    goes back. *)
Theorem take_keeps_schedule (b b' : Bucket.bucket.t) (now : Z)
    (r : Bucket.taken) :
  Bucket.take b now = Some (b', r) ->
  Bucket.bucket.startTime b' = Bucket.bucket.startTime b
  /\ Bucket.bucket.maxTokens b' = Bucket.bucket.maxTokens b
  /\ Bucket.bucket.interval b' = Bucket.bucket.interval b
  /\ Bucket.bucket.fillRate b' = Bucket.bucket.fillRate b
  /\ Bucket.tokens r = Bucket.bucket.maxTokens b
  /\ Bucket.bucket.lastTick b <= Bucket.bucket.lastTick b'
  /\ exists q,
       Bucket.tick (Bucket.bucket.startTime b) now (Bucket.bucket.interval b)
       = Some q
       /\ Bucket.bucket.lastTick b' = Z.max (Bucket.bucket.lastTick b) q.
Proof.
  intros H.
  destruct (Bucket.tick (Bucket.bucket.startTime b) now
              (Bucket.bucket.interval b)) as [q|] eqn:Hq;
    [|unfold Bucket.take in H; rewrite Hq in H; discriminate].
  rewrite (take_steps _ _ _ Hq) in H. injection H as <- <-.
  destruct (consume_frame (Bucket.refill b q)) as (C1 & C2 & C3 & C4 & C5).
  destruct (refill_frame b q) as (R1 & R2 & R3 & R4).
  pose proof (refill_lastTick b q) as L.
  cbn. repeat split; try congruence.
  - rewrite C5, L. lia.
  - exists q. split; [reflexivity|]. congruence.
Qed.

Lemma take_keeps_schedule_witness :
  exists b' r,
    Bucket.take (Bucket.newBucket 100 10 Second) (100 + 2 * Second)
    = Some (b', r)
    /\ Bucket.bucket.startTime b' = 100
    /\ Bucket.bucket.lastTick b' = 2.
Proof.
  eexists _, _. split; [vm_compute; reflexivity|].
  destruct (take_keeps_schedule (Bucket.newBucket 100 10 Second)
              _ (100 + 2 * Second) _ eq_refl)
    as (H1 & _ & _ & _ & _ & _ & q & Hq & HL).
  split; [exact H1|]. reflexivity.
Defined.

(** X2. At the first take of a new tick the refill replaces the balance:
    two buckets that differ in their balance alone come out of the take
    equal, with equal results. What was left of the old tick, and what a
    burst added, is dropped. *)
Theorem refill_replaces_balance (b c : Bucket.bucket.t) (now q : Z) :
  Bucket.bucket.startTime c = Bucket.bucket.startTime b ->
  Bucket.bucket.maxTokens c = Bucket.bucket.maxTokens b ->
  Bucket.bucket.interval c = Bucket.bucket.interval b ->
  Bucket.bucket.fillRate c = Bucket.bucket.fillRate b ->
  Bucket.bucket.lastTick c = Bucket.bucket.lastTick b ->
  Bucket.tick (Bucket.bucket.startTime b) now (Bucket.bucket.interval b)
  = Some q ->
  Bucket.bucket.lastTick b < q ->
  Bucket.take c now = Bucket.take b now.
Proof.
  intros Hs Hm Hi Hf Hl Hq Hlt.
  assert (Bucket.refill c q = Bucket.refill b q) as E.
  { unfold Bucket.refill. rewrite Hl, Hs, Hm, Hi, Hf.
    destruct (Z.ltb_spec (Bucket.bucket.lastTick b) q); [reflexivity | lia]. }
  rewrite (take_steps b now q Hq).
  rewrite (take_steps c now q) by (rewrite Hs, Hi; exact Hq).
  rewrite E, Hs, Hm, Hi. reflexivity.
Qed.

Lemma refill_replaces_balance_witness :
  Bucket.take (Bucket.bucket.mk 0 10 Second (F64.of_Z 100000000) 25 0) Second
  = Bucket.take (Bucket.bucket.mk 0 10 Second (F64.of_Z 100000000) 3 0) Second.
Proof.
  apply (refill_replaces_balance
           (Bucket.bucket.mk 0 10 Second (F64.of_Z 100000000) 3 0)
           (Bucket.bucket.mk 0 10 Second (F64.of_Z 100000000) 25 0)
           Second 1); try reflexivity.
Defined.

(** X3. Between tick boundaries the balance only goes down, one token
    per granted take: when no refill is due, a take on a positive balance is
    granted and leaves the balance one lower, which it reports; a take on an
    empty balance is denied, reports 0 and leaves the bucket exactly as it
    was. *)
Theorem take_between_ticks (b : Bucket.bucket.t) (now q : Z) :
  Bucket.tick (Bucket.bucket.startTime b) now (Bucket.bucket.interval b)
  = Some q ->
  q <= Bucket.bucket.lastTick b ->
  0 <= Bucket.bucket.availableTokens b < U64.modulus ->
  exists b' r,
    Bucket.take b now = Some (b', r)
    /\ Bucket.bucket.lastTick b' = Bucket.bucket.lastTick b
    /\ (0 < Bucket.bucket.availableTokens b ->
        Bucket.ok r = true
        /\ Bucket.bucket.availableTokens b'
           = Bucket.bucket.availableTokens b - 1
        /\ Bucket.remaining r = Bucket.bucket.availableTokens b - 1)
    /\ (Bucket.bucket.availableTokens b = 0 ->
        Bucket.ok r = false /\ Bucket.remaining r = 0 /\ b' = b).
Proof.
  intros Hq Hle Hr.
  rewrite (take_steps _ _ _ Hq), refill_not_due by exact Hle.
  eexists _, _. split; [reflexivity|].
  destruct (Z.eq_dec (Bucket.bucket.availableTokens b) 0) as [E|E].
  - rewrite consume_empty by lia. cbn. repeat split; auto; lia.
  - rewrite consume_positive by lia. cbn. repeat split; auto; lia.
Qed.

Lemma take_between_ticks_witness :
  exists b' r,
    Bucket.take (Bucket.newBucket 100 10 Second) 150 = Some (b', r)
    /\ Bucket.ok r = true
    /\ Bucket.bucket.availableTokens b' = 10 - 1
    /\ Bucket.remaining r = 10 - 1.
Proof.
  destruct (take_between_ticks (Bucket.newBucket 100 10 Second) 150 0)
    as (b' & r & HT & _ & Hpos & _).
  - reflexivity.
  - vm_compute. discriminate.
  - vm_compute. split; [discriminate | reflexivity].
  - exists b', r. split; [exact HT|]. apply Hpos. reflexivity.
Defined.

(** X4. [tick] counts whole intervals: for a positive interval and a
    reading from the start on (in the non-negative range of a signed 64-bit
    clock), the tick is [q] exactly when the reading lies in
    [start + q * interval, start + (q + 1) * interval). *)
Theorem tick_counts_whole_intervals (start now interval q : Z) :
  0 < interval <= I64.max_int ->
  0 <= start <= now ->
  now <= I64.max_int ->
  Bucket.tick start now interval = Some q
  <-> start + q * interval <= now < start + (q + 1) * interval.
Proof.
  intros Hi [Hs Hn] Hmax.
  rewrite (tick_exact_quotient start interval Hi Hs now ltac:(lia)).
  destruct (quotient_bounds start interval Hi now Hn) as (Q0 & Q1 & Q2).
  split.
  - intros [= <-]. lia.
  - intros [H1 H2]. f_equal.
    symmetry. apply (Z.div_unique_pos _ _ q (now - start - q * interval)); lia.
Qed.

Lemma tick_counts_whole_intervals_witness :
  Bucket.tick 0 (10 * Second - 500 * Millisecond) Second = Some 9
  <-> 0 + 9 * Second <= 10 * Second - 500 * Millisecond
      < 0 + (9 + 1) * Second.
Proof.
  apply (tick_counts_whole_intervals 0 (10 * Second - 500 * Millisecond)
           Second 9).
  - vm_compute. split; [reflexivity | discriminate].
  - vm_compute. split; discriminate.
  - vm_compute. discriminate.
Defined.

(** X5. A bucket of capacity 0 never grants: with a balance within the
    capacity, every take that returns is denied with 0 remaining, and the
    bucket stays empty. *)
Theorem zero_capacity_denies (b b' : Bucket.bucket.t) (now : Z)
    (r : Bucket.taken) :
  bounded b ->
  Bucket.bucket.maxTokens b = 0 ->
  Bucket.take b now = Some (b', r) ->
  Bucket.ok r = false /\ Bucket.remaining r = 0
  /\ Bucket.bucket.availableTokens b' = 0
  /\ Bucket.bucket.maxTokens b' = 0.
Proof.
  intros Hb Hm H.
  destruct (Bucket.tick (Bucket.bucket.startTime b) now
              (Bucket.bucket.interval b)) as [q|] eqn:Hq;
    [|unfold Bucket.take in H; rewrite Hq in H; discriminate].
  rewrite (take_steps _ _ _ Hq) in H. injection H as <- <-.
  pose proof (refill_bounded b q Hb) as Hrb.
  destruct (refill_frame b q) as (_ & R2 & _ & _).
  unfold bounded in Hrb. rewrite R2, Hm in Hrb.
  rewrite consume_empty by lia. cbn. repeat split; lia.
Qed.

Lemma zero_capacity_denies_witness :
  exists b' r,
    Bucket.take (Bucket.newBucket 0 0 Second) (3 * Second) = Some (b', r)
    /\ Bucket.ok r = false /\ Bucket.remaining r = 0
    /\ Bucket.bucket.availableTokens b' = 0
    /\ Bucket.bucket.maxTokens b' = 0.
Proof.
  eexists _, _. split; [vm_compute; reflexivity|].
  apply (zero_capacity_denies (Bucket.newBucket 0 0 Second) _ (3 * Second)).
  - unfold bounded. cbn. lia.
  - reflexivity.
  - vm_compute. reflexivity.
Defined.

(** ** The in-process storage across operations *)

Lemma takeFrom_frame (s s' : MemStorage.t) (key key' : string)
    (b : Bucket.bucket.t) (now : Z) (r : Bucket.taken * option error) :
  key <> key' ->
  MemStorage.takeFrom s key b now = Some (s', r) ->
  MemStorage.buckets s' !! key' = MemStorage.buckets s !! key'
  /\ MemStorage.tokens s' = MemStorage.tokens s
  /\ MemStorage.interval s' = MemStorage.interval s
  /\ MemStorage.stopped s' = MemStorage.stopped s.
Proof.
  intros Hne. unfold MemStorage.takeFrom.
  destruct (Bucket.take b now) as [[b' t]|]; [|discriminate].
  intros [= <- _]. cbn. rewrite lookup_insert_ne by exact Hne. auto.
Qed.

(** X6. Keys do not interfere: [Take], [Set] and [Burst] on one key
    leave the bucket of every other key, and the capacity, interval and stop
    flag of the storage, as they were. *)
Theorem other_keys_untouched (s : MemStorage.t) (key key' : string) :
  key <> key' ->
  (forall created now s' r,
      MemStorage.Take s key created now = Some (s', r) ->
      MemStorage.buckets s' !! key' = MemStorage.buckets s !! key'
      /\ MemStorage.tokens s' = MemStorage.tokens s
      /\ MemStorage.interval s' = MemStorage.interval s
      /\ MemStorage.stopped s' = MemStorage.stopped s)
  /\ (forall tokens interval now,
        let s' := (MemStorage.Set_ s key tokens interval now).1 in
        MemStorage.buckets s' !! key' = MemStorage.buckets s !! key'
        /\ MemStorage.tokens s' = MemStorage.tokens s
        /\ MemStorage.interval s' = MemStorage.interval s
        /\ MemStorage.stopped s' = MemStorage.stopped s)
  /\ (forall tokens now,
        let s' := (MemStorage.Burst s key tokens now).1 in
        MemStorage.buckets s' !! key' = MemStorage.buckets s !! key'
        /\ MemStorage.tokens s' = MemStorage.tokens s
        /\ MemStorage.interval s' = MemStorage.interval s
        /\ MemStorage.stopped s' = MemStorage.stopped s).
Proof.
  intros Hne. split; [|split].
  - intros created now s' r. unfold MemStorage.Take.
    destruct (MemStorage.stopped s =? 1); [intros [= <- _]; auto|].
    destruct (MemStorage.buckets s !! key); now apply takeFrom_frame.
  - intros tokens interval now. cbn.
    rewrite lookup_insert_ne by exact Hne. auto.
  - intros tokens now. unfold MemStorage.Burst.
    destruct (MemStorage.buckets s !! key); cbn;
      rewrite lookup_insert_ne by exact Hne; auto.
Qed.

Lemma other_keys_untouched_witness :
  let s := (MemStorage.Set_ (MemStorage.NewMemStorage None) "b" 7 Second 0).1 in
  exists s' r,
    MemStorage.Take s "a" 3 4 = Some (s', r)
    /\ MemStorage.buckets s' !! "b" = MemStorage.buckets s !! "b"
    /\ MemStorage.tokens s' = MemStorage.tokens s
    /\ MemStorage.interval s' = MemStorage.interval s
    /\ MemStorage.stopped s' = MemStorage.stopped s.
Proof.
  cbv zeta.
  destruct (other_keys_untouched
              (MemStorage.Set_ (MemStorage.NewMemStorage None) "b" 7 Second 0).1
              "a" "b") as [H _].
  - discriminate.
  - eexists _, _. split; [vm_compute; reflexivity|].
    eapply (H 3 4). vm_compute. reflexivity.
Defined.

Lemma refill_nonneg (b : Bucket.bucket.t) (q : Z) :
  0 <= Bucket.bucket.availableTokens b -> 0 <= Bucket.bucket.maxTokens b ->
  0 <= Bucket.bucket.availableTokens (Bucket.refill b q).
Proof.
  intros Ha Hm. unfold Bucket.refill.
  destruct (Bucket.bucket.lastTick b <? q); [|exact Ha].
  cbn. now apply availableTokens_bounds.
Qed.

Lemma take_reports_balance (b b' : Bucket.bucket.t) (now : Z)
    (t : Bucket.taken) :
  0 <= Bucket.bucket.availableTokens b -> 0 <= Bucket.bucket.maxTokens b ->
  Bucket.take b now = Some (b', t) ->
  Bucket.get b' = (Bucket.tokens t, Bucket.remaining t).
Proof.
  intros Ha Hm H.
  destruct (Bucket.tick (Bucket.bucket.startTime b) now
              (Bucket.bucket.interval b)) as [q|] eqn:Hq;
    [|unfold Bucket.take in H; rewrite Hq in H; discriminate].
  rewrite (take_steps _ _ _ Hq) in H. injection H as <- <-.
  pose proof (refill_nonneg b q Ha Hm) as Hn.
  destruct (refill_frame b q) as (_ & R2 & _ & _).
  unfold Bucket.get, Bucket.consume.
  destruct (Z.ltb_spec 0 (Bucket.bucket.availableTokens (Bucket.refill b q)));
    cbn; f_equal; try congruence; lia.
Qed.

(** X7. [Get] after [Take] reads what [Take] reported: on a storage with
    no negative capacity or balance, when [Take] returns without error,
    [Get] on the key returns the limit and the remaining count of that
    [Take], granted or denied. *)
Theorem Take_then_Get (s s' : MemStorage.t) (key : string) (created now : Z)
    (t : Bucket.taken) :
  NonNegative s ->
  MemStorage.Take s key created now = Some (s', (t, None)) ->
  MemStorage.Get s' key = (Bucket.tokens t, Bucket.remaining t, None).
Proof.
  intros [Ht Hb]. unfold MemStorage.Take, MemStorage.Get.
  destruct (Z.eqb_spec (MemStorage.stopped s) 1) as [E|E]; [discriminate|].
  assert (forall b,
    0 <= Bucket.bucket.availableTokens b -> 0 <= Bucket.bucket.maxTokens b ->
    MemStorage.takeFrom s key b now = Some (s', (t, None)) ->
    (if MemStorage.stopped s' =? 1 then (0, 0, Some ErrStopped)
     else match MemStorage.buckets s' !! key with
          | Some b0 => (Bucket.get b0, None)
          | None => (0, 0, None)
          end) = (Bucket.tokens t, Bucket.remaining t, None)) as Hfrom.
  { intros b Ha Hm. unfold MemStorage.takeFrom.
    destruct (Bucket.take b now) as [[b' t']|] eqn:HT; [|discriminate].
    intros [= <- <-]. cbn.
    destruct (Z.eqb_spec (MemStorage.stopped s) 1); [contradiction|].
    rewrite lookup_insert_eq.
    now rewrite (take_reports_balance _ _ _ _ Ha Hm HT). }
  destruct (MemStorage.buckets s !! key) as [b|] eqn:Hk.
  - destruct (Hb _ _ Hk). now apply Hfrom.
  - apply Hfrom; cbn; exact Ht.
Qed.

Lemma Take_then_Get_witness :
  exists s' t,
    MemStorage.Take (MemStorage.NewMemStorage None) "a" 0 1
    = Some (s', (t, None))
    /\ MemStorage.Get s' "a" = (Bucket.tokens t, Bucket.remaining t, None).
Proof.
  eexists _, _. split; [vm_compute; reflexivity|].
  apply (Take_then_Get (MemStorage.NewMemStorage None) _ "a" 0 1).
  - split; [vm_compute; discriminate|].
    intros key b H. cbn in H. rewrite lookup_empty in H. discriminate.
  - vm_compute. reflexivity.
Defined.

(** X8. [Close] works once. On an open in-process storage it returns no
    error, sets the stop flag and empties the registry; a second [Close]
    returns the stop-flag error and changes nothing. On the distributed
    client the first [Close] sets the flag and the second returns no error
    and changes nothing. *)
Theorem Close_works_once (s : MemStorage.t) (rs : RedisStorage.t) :
  MemStorage.stopped s = 0 ->
  RedisStorage.stopped rs = 0 ->
  ((MemStorage.Close s).2 = None
   /\ MemStorage.stopped (MemStorage.Close s).1 = 1
   /\ MemStorage.buckets (MemStorage.Close s).1 = ∅
   /\ MemStorage.Close (MemStorage.Close s).1
      = ((MemStorage.Close s).1, Some ErrStoppedFlag))
  /\ ((RedisStorage.Close rs).2 = None
      /\ RedisStorage.stopped (RedisStorage.Close rs).1 = 1
      /\ RedisStorage.Close (RedisStorage.Close rs).1
         = ((RedisStorage.Close rs).1, None)).
Proof.
  intros Hs Hrs. unfold MemStorage.Close, RedisStorage.Close.
  rewrite Hs, Hrs. cbn. auto 10.
Qed.

Lemma Close_works_once_witness :
  MemStorage.Close (MemStorage.Close (MemStorage.NewMemStorage None)).1
  = ((MemStorage.Close (MemStorage.NewMemStorage None)).1,
     Some ErrStoppedFlag).
Proof.
  apply (Close_works_once (MemStorage.NewMemStorage None)
           (RedisStorage.NewRSWithPool None)); reflexivity.
Defined.

(** X9. [Set] accepts a zero interval, and the bucket it registers then
    makes every [Take] on the key panic on the division of [tick], while
    [Get] keeps answering. *)
Theorem zero_interval_panics (s : MemStorage.t) (key : string)
    (tokens now created now' : Z) :
  MemStorage.stopped s <> 1 ->
  (MemStorage.Set_ s key tokens 0 now).2 = None
  /\ MemStorage.Take (MemStorage.Set_ s key tokens 0 now).1 key created now'
     = None
  /\ MemStorage.Get (MemStorage.Set_ s key tokens 0 now).1 key
     = (tokens, tokens, None).
Proof.
  intros Hs. split; [reflexivity|].
  unfold MemStorage.Take, MemStorage.Get. cbn.
  destruct (Z.eqb_spec (MemStorage.stopped s) 1); [contradiction|].
  rewrite lookup_insert_eq. split; reflexivity.
Qed.

Lemma zero_interval_panics_witness :
  MemStorage.Take
    (MemStorage.Set_ (MemStorage.NewMemStorage None) "a" 5 0 7).1 "a" 8 9
  = None.
Proof.
  apply (zero_interval_panics (MemStorage.NewMemStorage None) "a" 5 7 8 9).
  vm_compute. discriminate.
Defined.

Lemma take_interval (b b' : Bucket.bucket.t) (now : Z) (r : Bucket.taken) :
  Bucket.take b now = Some (b', r) ->
  Bucket.bucket.interval b' = Bucket.bucket.interval b.
Proof.
  intros H.
  destruct (Bucket.tick (Bucket.bucket.startTime b) now
              (Bucket.bucket.interval b)) as [q|] eqn:Hq;
    [|unfold Bucket.take in H; rewrite Hq in H; discriminate].
  rewrite (take_steps _ _ _ Hq) in H. injection H as <- _.
  destruct (consume_frame (Bucket.refill b q)) as (_ & _ & C3 & _).
  destruct (refill_frame b q) as (_ & _ & R3 & _).
  congruence.
Qed.

Lemma NoZeroInterval_insert (s : MemStorage.t) (key : string)
    (b : Bucket.bucket.t) :
  NoZeroInterval s ->
  U64.of_int64 (Bucket.bucket.interval b) <> 0 ->
  NoZeroInterval
    (MemStorage.with_buckets s (<[key := b]> (MemStorage.buckets s))).
Proof.
  intros [Hs Hb] Hi. split; [exact Hs|].
  intros key' b'. cbn. rewrite lookup_insert.
  destruct (decide (key = key')); [intros [= <-]; exact Hi | apply Hb].
Qed.

Lemma takeFrom_returns (s : MemStorage.t) (key : string)
    (b : Bucket.bucket.t) (now : Z) :
  NoZeroInterval s ->
  U64.of_int64 (Bucket.bucket.interval b) <> 0 ->
  exists s' r,
    MemStorage.takeFrom s key b now = Some (s', r) /\ NoZeroInterval s'.
Proof.
  intros Hs Hi. unfold MemStorage.takeFrom.
  destruct (take_total b now Hi) as (b' & r & HT). rewrite HT.
  eexists _, _. split; [reflexivity|].
  apply NoZeroInterval_insert; [exact Hs|].
  now rewrite (take_interval _ _ _ _ HT).
Qed.

(** X10. [Take] returns on every storage in which neither the storage
    nor a registered bucket has a zero interval, and leaves such a storage;
    so does [Burst], and so does [Set] with an interval that is not zero.
    The panic of a take thus needs a [Set] with a zero interval. *)
Theorem Take_returns (s : MemStorage.t) (key : string) :
  NoZeroInterval s ->
  (forall created now,
      exists s' r,
        MemStorage.Take s key created now = Some (s', r)
        /\ NoZeroInterval s')
  /\ (forall tokens now, NoZeroInterval (MemStorage.Burst s key tokens now).1)
  /\ (forall tokens interval now,
        U64.of_int64 interval <> 0 ->
        NoZeroInterval (MemStorage.Set_ s key tokens interval now).1).
Proof.
  intros Hs. split; [|split].
  - intros created now. unfold MemStorage.Take.
    destruct (MemStorage.stopped s =? 1); [eauto|].
    destruct (MemStorage.buckets s !! key) as [b|] eqn:Hk.
    + apply takeFrom_returns; [exact Hs | exact (proj2 Hs _ _ Hk)].
    + apply takeFrom_returns; [exact Hs | exact (proj1 Hs)].
  - intros tokens now. unfold MemStorage.Burst.
    destruct (MemStorage.buckets s !! key) as [b|] eqn:Hk; cbn.
    + apply NoZeroInterval_insert; [exact Hs | exact (proj2 Hs _ _ Hk)].
    + apply NoZeroInterval_insert; [exact Hs | exact (proj1 Hs)].
  - intros tokens interval now Hi. cbn.
    now apply NoZeroInterval_insert.
Qed.

Lemma NoZeroInterval_empty (s : MemStorage.t) :
  U64.of_int64 (MemStorage.interval s) <> 0 ->
  MemStorage.buckets s = ∅ -> NoZeroInterval s.
Proof.
  intros Hi E. split; [exact Hi|].
  intros key b. rewrite E, lookup_empty. discriminate.
Qed.

Lemma Take_returns_witness :
  exists s' r,
    MemStorage.Take (MemStorage.NewMemStorage None) "a" 3 4 = Some (s', r)
    /\ NoZeroInterval s'.
Proof.
  destruct (Take_returns (MemStorage.NewMemStorage None) "a") as [H _].
  - apply NoZeroInterval_empty; [vm_compute; discriminate | reflexivity].
  - exact (H 3 4).
Defined.

(** X11. [NewMemStorage] falls back to its defaults: a zero capacity
    becomes 1, an interval, sweep interval or minimal time to live that is
    not positive becomes 1 second, 6 hours and 12 hours, and a nil
    configuration is the zero configuration. Every storage it builds is
    open and empty, with a capacity of at least 1 and a positive
    interval. *)
Theorem NewMemStorage_defaults (cfg : MemStorage.Config) :
  0 <= MemStorage.Tokens cfg ->
  MemStorage.Interval cfg <= I64.max_int ->
  let s := MemStorage.NewMemStorage (Some cfg) in
  (1 <= MemStorage.tokens s /\ 0 < MemStorage.interval s
   /\ 0 < MemStorage.sweepInterval s
   /\ MemStorage.stopped s = 0 /\ MemStorage.buckets s = ∅
   /\ NoZeroInterval s)
  /\ (MemStorage.Tokens cfg = 0 -> MemStorage.tokens s = 1)
  /\ (MemStorage.Interval cfg <= 0 -> MemStorage.interval s = Second)
  /\ (MemStorage.SweepInterval cfg <= 0 ->
      MemStorage.sweepInterval s = 6 * Hour)
  /\ (MemStorage.SweepMinTTL cfg <= 0 ->
      MemStorage.sweepMinTTL s = 12 * Hour)
  /\ MemStorage.NewMemStorage None
     = MemStorage.NewMemStorage (Some MemStorage.zeroConfig).
Proof.
  intros Ht Hi. cbv zeta. unfold MemStorage.NewMemStorage.
  change (default MemStorage.zeroConfig (Some cfg)) with cfg.
  cbn [default MemStorage.tokens MemStorage.interval MemStorage.sweepInterval
       MemStorage.sweepMinTTL MemStorage.buckets MemStorage.stopped].
  assert (0 < (if 0 <? MemStorage.Interval cfg
               then MemStorage.Interval cfg else 1 * Second)
          <= I64.max_int) as Hint.
  { destruct (Z.ltb_spec 0 (MemStorage.Interval cfg)); [lia|].
    vm_compute. split; [reflexivity | discriminate]. }
  split; [|split; [|split; [|split; [|split]]]].
  - split; [destruct (Z.ltb_spec 0 (MemStorage.Tokens cfg)); lia|].
    split; [lia|].
    split; [destruct (Z.ltb_spec 0 (MemStorage.SweepInterval cfg));
            [lia | reflexivity]|].
    split; [reflexivity|]. split; [reflexivity|].
    apply NoZeroInterval_empty; [|reflexivity].
    cbn [MemStorage.interval]. unfold U64.of_int64, I64.max_int in *.
    rewrite wrap_small by (unfold U64.modulus; lia). lia.
  - intros E. destruct (Z.ltb_spec 0 (MemStorage.Tokens cfg)); [lia | reflexivity].
  - intros E. destruct (Z.ltb_spec 0 (MemStorage.Interval cfg)); [lia | reflexivity].
  - intros E. destruct (Z.ltb_spec 0 (MemStorage.SweepInterval cfg));
      [lia | reflexivity].
  - intros E. destruct (Z.ltb_spec 0 (MemStorage.SweepMinTTL cfg));
      [lia | reflexivity].
  - reflexivity.
Qed.

Lemma NewMemStorage_defaults_witness :
  MemStorage.tokens
    (MemStorage.NewMemStorage (Some (MemStorage.mkConfig 0 (-5) 0 0 0))) = 1
  /\ MemStorage.interval
       (MemStorage.NewMemStorage (Some (MemStorage.mkConfig 0 (-5) 0 0 0)))
     = Second.
Proof.
  destruct (NewMemStorage_defaults (MemStorage.mkConfig 0 (-5) 0 0 0))
    as (_ & H1 & H2 & _).
  - vm_compute. discriminate.
  - vm_compute. discriminate.
  - split; [apply H1; reflexivity | apply H2; vm_compute; discriminate].
Defined.

(** ** The sweep *)

Lemma purge_lookup (s : MemStorage.t) (now : Z) (key : string) :
  MemStorage.buckets (Sweep.purge s now) !! key
  = match MemStorage.buckets s !! key with
    | Some b => if Sweep.stale s now b then None else Some b
    | None => None
    end.
Proof.
  unfold Sweep.purge. cbn. rewrite map_lookup_filter.
  destruct (MemStorage.buckets s !! key) as [b|]; [|reflexivity].
  cbn. destruct (Sweep.stale s now b); cbn.
  - rewrite option_guard_False; [reflexivity | discriminate].
  - rewrite option_guard_True; reflexivity.
Qed.

Lemma lastTime_exact (b : Bucket.bucket.t) (now : Z) :
  0 <= Bucket.bucket.startTime b -> 0 <= Bucket.bucket.lastTick b ->
  0 < Bucket.bucket.interval b <= I64.max_int ->
  Bucket.bucket.startTime b
  + Bucket.bucket.lastTick b * Bucket.bucket.interval b <= now ->
  now < U64.modulus ->
  U64.sub now (Sweep.lastTime b)
  = now - (Bucket.bucket.startTime b
           + Bucket.bucket.lastTick b * Bucket.bucket.interval b).
Proof.
  intros Hs Hl Hi Hle Hn. unfold I64.max_int in Hi.
  assert (Bucket.bucket.lastTick b
          <= Bucket.bucket.lastTick b * Bucket.bucket.interval b) by nia.
  unfold Sweep.lastTime, U64.sub, U64.add, U64.mul, U64.of_int64.
  rewrite (wrap_small (Bucket.bucket.interval b)) by (unfold U64.modulus; lia).
  rewrite (wrap_small (_ * _)) by nia.
  rewrite (wrap_small (_ + _)) by nia.
  apply wrap_small. nia.
Qed.

(** X12. A sweep only deletes, and it deletes by idle time: a key
    without a bucket stays without one; a bucket whose last tick lies at
    most [sweepMinTTL] nanoseconds before the sweep survives unchanged, and
    one whose last tick lies further back is removed. (Start time, last
    tick and interval as a running 64-bit clock has them, the last tick not
    after the sweep.) *)
Theorem purge_evicts_by_idle_time (s : MemStorage.t) (now : Z) (key : string)
    (b : Bucket.bucket.t) :
  MemStorage.buckets s !! key = Some b ->
  0 <= Bucket.bucket.startTime b -> 0 <= Bucket.bucket.lastTick b ->
  0 < Bucket.bucket.interval b <= I64.max_int ->
  Bucket.bucket.startTime b
  + Bucket.bucket.lastTick b * Bucket.bucket.interval b <= now ->
  now < U64.modulus ->
  let idle :=
    now - (Bucket.bucket.startTime b
           + Bucket.bucket.lastTick b * Bucket.bucket.interval b) in
  (idle <= MemStorage.sweepMinTTL s ->
   MemStorage.buckets (Sweep.purge s now) !! key = Some b)
  /\ (MemStorage.sweepMinTTL s < idle ->
      MemStorage.buckets (Sweep.purge s now) !! key = None)
  /\ (forall key',
        MemStorage.buckets s !! key' = None ->
        MemStorage.buckets (Sweep.purge s now) !! key' = None)
  /\ MemStorage.tokens (Sweep.purge s now) = MemStorage.tokens s
  /\ MemStorage.interval (Sweep.purge s now) = MemStorage.interval s
  /\ MemStorage.stopped (Sweep.purge s now) = MemStorage.stopped s.
Proof.
  intros Hk Hs Hl Hi Hle Hn. cbv zeta.
  pose proof (lastTime_exact b now Hs Hl Hi Hle Hn) as E.
  repeat split.
  - intros H. rewrite purge_lookup, Hk. unfold Sweep.stale. rewrite E.
    destruct (Z.ltb_spec (MemStorage.sweepMinTTL s)
      (now - (Bucket.bucket.startTime b
              + Bucket.bucket.lastTick b * Bucket.bucket.interval b)));
      [lia | reflexivity].
  - intros H. rewrite purge_lookup, Hk. unfold Sweep.stale. rewrite E.
    destruct (Z.ltb_spec (MemStorage.sweepMinTTL s)
      (now - (Bucket.bucket.startTime b
              + Bucket.bucket.lastTick b * Bucket.bucket.interval b)));
      [reflexivity | lia].
  - intros key' H. now rewrite purge_lookup, H.
Qed.

Lemma purge_evicts_by_idle_time_witness :
  let s := (MemStorage.Set_
              (MemStorage.NewMemStorage
                 (Some (MemStorage.mkConfig 10 Second Hour Hour 0)))
              "a" 10 Second 0).1 in
  MemStorage.buckets (Sweep.purge s (Hour + 1)) !! "a" = None.
Proof.
  cbv zeta.
  destruct (purge_evicts_by_idle_time
              (MemStorage.Set_
                 (MemStorage.NewMemStorage
                    (Some (MemStorage.mkConfig 10 Second Hour Hour 0)))
                 "a" 10 Second 0).1
              (Hour + 1) "a" (Bucket.newBucket 0 10 Second))
    as (_ & H & _).
  - reflexivity.
  - vm_compute. discriminate.
  - vm_compute. discriminate.
  - vm_compute. split; [reflexivity | discriminate].
  - vm_compute. discriminate.
  - reflexivity.
  - apply H. reflexivity.
Defined.

(** X13. A bucket in use is not swept: after a take at [now] on a bucket
    whose last tick is not ahead of the clock, a sweep at [now' >= now]
    keeps the bucket as the take left it, provided
    [now' - now + interval <= sweepMinTTL]. *)
Theorem purge_spares_used_bucket (s : MemStorage.t) (key : string)
    (b : Bucket.bucket.t) (created now now' : Z) :
  MemStorage.stopped s <> 1 ->
  MemStorage.buckets s !! key = Some b ->
  0 < Bucket.bucket.interval b <= I64.max_int ->
  0 <= Bucket.bucket.startTime b <= now ->
  now <= now' <= I64.max_int ->
  0 <= Bucket.bucket.lastTick b
  <= (now - Bucket.bucket.startTime b) / Bucket.bucket.interval b ->
  now' - now + Bucket.bucket.interval b <= MemStorage.sweepMinTTL s ->
  exists s1 r b1,
    MemStorage.Take s key created now = Some (s1, r)
    /\ MemStorage.buckets s1 !! key = Some b1
    /\ MemStorage.buckets (Sweep.purge s1 now') !! key = Some b1.
Proof.
  intros Hst Hk Hi [Hs Hn] [Hn' Hmax] [Hl0 Hl] Httl.
  rewrite (Take_registered s key b created now Hst Hk).
  unfold MemStorage.takeFrom.
  pose proof (tick_exact_quotient _ _ Hi Hs now ltac:(lia)) as Hq.
  set (q := (now - Bucket.bucket.startTime b) / Bucket.bucket.interval b) in *.
  rewrite (take_steps _ _ _ Hq).
  set (b1 := (Bucket.consume (Bucket.refill b q)).1).
  eexists _, _, b1. split; [reflexivity|].
  cbn [MemStorage.buckets MemStorage.with_buckets].
  split; [apply lookup_insert_eq|].
  destruct (consume_frame (Bucket.refill b q)) as (C1 & _ & C3 & _ & C5).
  destruct (refill_frame b q) as (R1 & _ & R3 & _).
  pose proof (refill_lastTick b q) as L.
  assert (Bucket.bucket.startTime b1 = Bucket.bucket.startTime b) as E1
    by (subst b1; congruence).
  assert (Bucket.bucket.interval b1 = Bucket.bucket.interval b) as E3
    by (subst b1; congruence).
  assert (Bucket.bucket.lastTick b1 = q) as E5
    by (subst b1; rewrite C5, L; lia).
  destruct (quotient_bounds _ _ Hi now Hn) as (Q0 & Q1 & Q2). fold q in Q0, Q1, Q2.
  unfold I64.max_int in *.
  rewrite purge_lookup. cbn [MemStorage.buckets MemStorage.with_buckets].
  rewrite lookup_insert_eq. unfold Sweep.stale.
  rewrite lastTime_exact; rewrite ?E1, ?E3, ?E5;
    try (unfold I64.max_int, U64.modulus; lia).
  cbn [MemStorage.sweepMinTTL MemStorage.with_buckets].
  destruct (Z.ltb_spec (MemStorage.sweepMinTTL s)
    (now' - (Bucket.bucket.startTime b + q * Bucket.bucket.interval b)));
    [lia | reflexivity].
Qed.

Lemma purge_spares_used_bucket_witness :
  let s := (MemStorage.Set_
              (MemStorage.NewMemStorage
                 (Some (MemStorage.mkConfig 10 Second Hour Hour 0)))
              "a" 10 Second 0).1 in
  exists s1 r b1,
    MemStorage.Take s "a" 0 (5 * Second) = Some (s1, r)
    /\ MemStorage.buckets s1 !! "a" = Some b1
    /\ MemStorage.buckets (Sweep.purge s1 (Hour + 4 * Second)) !! "a"
       = Some b1.
Proof.
  cbv zeta.
  apply (purge_spares_used_bucket _ "a" (Bucket.newBucket 0 10 Second)).
  - vm_compute. discriminate.
  - reflexivity.
  - vm_compute. split; [reflexivity | discriminate].
  - vm_compute. split; discriminate.
  - vm_compute. split; discriminate.
  - vm_compute. split; discriminate.
  - vm_compute. discriminate.
Defined.

(** X14. A swept key starts over: when the sweep finds the bucket of a
    key stale, the next [Take] on the key, within the first interval of the
    bucket it creates, is granted with the limit of the storage and one
    token less than it remaining. *)
Theorem swept_key_starts_over (s : MemStorage.t) (key : string)
    (b : Bucket.bucket.t) (now created now' : Z) :
  MemStorage.stopped s <> 1 ->
  MemStorage.buckets s !! key = Some b ->
  Sweep.stale s now b = true ->
  1 <= MemStorage.tokens s < U64.modulus ->
  Bucket.tick created now' (MemStorage.interval s) = Some 0 ->
  MemStorage.buckets (Sweep.purge s now) !! key = None
  /\ exists s' r,
       MemStorage.Take (Sweep.purge s now) key created now'
       = Some (s', (r, None))
       /\ Bucket.ok r = true
       /\ Bucket.tokens r = MemStorage.tokens s
       /\ Bucket.remaining r = MemStorage.tokens s - 1.
Proof.
  intros Hst Hk Hstale Ht Htick.
  assert (MemStorage.buckets (Sweep.purge s now) !! key = None) as Hnone
    by (now rewrite purge_lookup, Hk, Hstale).
  split; [exact Hnone|].
  rewrite (Take_fresh (Sweep.purge s now) key created now' Hst Hnone).
  destruct (takeFrom_first_interval (Sweep.purge s now) key
              (Bucket.newBucket created (MemStorage.tokens s)
                 (MemStorage.interval s)) now' (MemStorage.tokens s)
              eq_refl eq_refl ltac:(lia) Htick)
    as (s1 & b' & r & HT & _ & _ & _ & _ & _ & _ & Hlim & Hpos & _).
  exists s1, r. split; [exact HT|].
  destruct (Hpos ltac:(lia)) as (Hok & Hrem & _).
  repeat split; assumption.
Qed.

Lemma swept_key_starts_over_witness :
  let s := (MemStorage.Burst
              (MemStorage.NewMemStorage
                 (Some (MemStorage.mkConfig 10 Second Hour Hour 0)))
              "a" 5 0).1 in
  exists s' r,
    MemStorage.Take (Sweep.purge s (2 * Hour)) "a" (2 * Hour) (2 * Hour + 1)
    = Some (s', (r, None))
    /\ Bucket.ok r = true
    /\ Bucket.tokens r = 10
    /\ Bucket.remaining r = 10 - 1.
Proof.
  cbv zeta.
  apply (swept_key_starts_over
           (MemStorage.Burst
              (MemStorage.NewMemStorage
                 (Some (MemStorage.mkConfig 10 Second Hour Hour 0)))
              "a" 5 0).1
           "a" (Bucket.newBucket 0 15 Second) (2 * Hour)).
  - vm_compute. discriminate.
  - reflexivity.
  - reflexivity.
  - vm_compute. split; [discriminate | reflexivity].
  - reflexivity.
Defined.

(** ** The distributed storage across operations *)

Lemma HGETALL_HSET_ne (d : Redis.db) (key key' : string)
    (fvs : list (string * Z)) :
  key <> key' ->
  Redis.HGETALL (Redis.HSET d key fvs) key' = Redis.HGETALL d key'.
Proof.
  intros H. unfold Redis.HGETALL, Redis.HSET. cbn.
  now rewrite lookup_insert_ne.
Qed.

Lemma HGETALL_EXPIRE_ne (d : Redis.db) (key key' : string) (seconds : Z) :
  key <> key' ->
  Redis.HGETALL (Redis.EXPIRE d key seconds) key' = Redis.HGETALL d key'.
Proof.
  intros H. unfold Redis.EXPIRE.
  destruct (Redis.hashes d !! key); [|reflexivity].
  destruct (0 <? seconds); [reflexivity|].
  unfold Redis.HGETALL. cbn. now rewrite lookup_delete_ne.
Qed.

(** X15. In the distributed storage too, keys do not interfere: [Take]
    (through the script), [Set] and [Burst] on one key leave the record of
    every other key as it was. *)
Theorem Redis_other_keys_untouched (rs : RedisStorage.t) (d : Redis.db)
    (key key' : string) :
  key <> key' ->
  (forall now,
      Redis.HGETALL (RedisStorage.Take rs d key now).1 key'
      = Redis.HGETALL d key')
  /\ (forall tokens interval,
        Redis.HGETALL (RedisStorage.Set_ rs d key tokens interval).1 key'
        = Redis.HGETALL d key')
  /\ (forall tokens,
        Redis.HGETALL (RedisStorage.Burst rs d key tokens).1 key'
        = Redis.HGETALL d key').
Proof.
  intros Hne. split; [|split].
  - intros now. unfold RedisStorage.Take, Script.run.
    destruct (RedisStorage.stopped rs =? 1); reflexivity.
  - intros tokens interval. unfold RedisStorage.Set_.
    destruct (RedisStorage.stopped rs =? 1); [reflexivity|]. cbn [fst].
    now rewrite HGETALL_EXPIRE_ne, HGETALL_HSET_ne.
  - intros tokens. unfold RedisStorage.Burst, Redis.HINCRBY.
    destruct (RedisStorage.stopped rs =? 1); [reflexivity|]. cbn [fst].
    rewrite HGETALL_EXPIRE_ne by exact Hne.
    destruct (_ && _); [now rewrite HGETALL_HSET_ne | reflexivity].
Qed.

Lemma Redis_other_keys_untouched_witness :
  let rs := RedisStorage.NewRSWithPool None in
  let d := (RedisStorage.Set_ rs Redis.empty "b" 7 Second).1 in
  Redis.HGETALL (RedisStorage.Take rs d "a" 5).1 "b" = Redis.HGETALL d "b".
Proof.
  cbv zeta.
  destruct (Redis_other_keys_untouched (RedisStorage.NewRSWithPool None)
              (RedisStorage.Set_ (RedisStorage.NewRSWithPool None)
                 Redis.empty "b" 7 Second).1 "a" "b") as [H _].
  - discriminate.
  - exact (H 5).
Defined.

(** X16. [Get] on a key that has no state returns zero limit, zero
    remaining and no error, in both storages. *)
Theorem Get_unknown_key (s : MemStorage.t) (rs : RedisStorage.t)
    (d : Redis.db) (key : string) :
  MemStorage.stopped s <> 1 ->
  MemStorage.buckets s !! key = None ->
  RedisStorage.stopped rs <> 1 ->
  Redis.hashes d !! key = None ->
  MemStorage.Get s key = (0, 0, None)
  /\ RedisStorage.Get rs d key = (0, 0, None).
Proof.
  intros Hs Hk Hrs Hd. unfold MemStorage.Get, RedisStorage.Get.
  destruct (Z.eqb_spec (MemStorage.stopped s) 1); [contradiction|].
  destruct (Z.eqb_spec (RedisStorage.stopped rs) 1); [contradiction|].
  rewrite Hk. split; [reflexivity|].
  unfold Redis.HMGET, Redis.HGETALL. rewrite Hd. cbn.
  rewrite !lookup_empty. reflexivity.
Qed.

Lemma Get_unknown_key_witness :
  MemStorage.Get (MemStorage.NewMemStorage None) "a" = (0, 0, None)
  /\ RedisStorage.Get (RedisStorage.NewRSWithPool None) Redis.empty "a"
     = (0, 0, None).
Proof.
  apply (Get_unknown_key (MemStorage.NewMemStorage None)
           (RedisStorage.NewRSWithPool None) Redis.empty "a").
  - vm_compute. discriminate.
  - reflexivity.
  - vm_compute. discriminate.
  - reflexivity.
Defined.

(** ** The middleware *)

(** X20. [HeadersKeyFunc] returns the value of the first listed header
    whose value is not empty, and never an empty key; it fails, with
    [ErrNoHeaderFound], exactly when every listed header is empty or none is
    listed. *)
Theorem HeadersKeyFunc_first_nonempty (headers : list string)
    (r : HttpLimiter.request) :
  (forall key,
      HttpLimiter.HeadersKeyFunc headers r = inl key ->
      key <> EmptyString
      /\ exists before header after,
           headers = before ++ header :: after
           /\ HttpLimiter.HeaderGet r header = key
           /\ Forall (fun h => HttpLimiter.HeaderGet r h = EmptyString) before)
  /\ (forall e,
        HttpLimiter.HeadersKeyFunc headers r = inr e ->
        e = HttpLimiter.ErrNoHeaderFound)
  /\ (HttpLimiter.HeadersKeyFunc headers r
      = inr HttpLimiter.ErrNoHeaderFound
      <-> Forall (fun h => HttpLimiter.HeaderGet r h = EmptyString) headers).
Proof.
  induction headers as [|h hs (IH1 & IH2 & IH3)]; cbn [HttpLimiter.HeadersKeyFunc].
  - split; [discriminate|]. split; [now intros e [= <-]|].
    split; [constructor | reflexivity].
  - destruct (HttpLimiter.HeaderGet r h) as [|c v] eqn:E.
    + split; [|split].
      * intros key Hk. destruct (IH1 key Hk) as (Hne & pre & x & post & -> & Hx & Hpre).
        split; [exact Hne|]. exists (h :: pre), x, post.
        split; [reflexivity|]. split; [exact Hx|]. now constructor.
      * exact IH2.
      * rewrite IH3. split; [now constructor | now intros H; inversion H].
    + split; [|split].
      * intros key [= <-]. split; [discriminate|].
        exists [], h, hs. split; [reflexivity|]. split; [exact E | constructor].
      * discriminate.
      * split; [discriminate|].
        intros H. inversion H as [|? ? H1 _]. rewrite E in H1. discriminate.
Qed.

Lemma HeadersKeyFunc_first_nonempty_witness :
  let r := HttpLimiter.mkRequest
             (fun h => if String.eqb h "X-User" then "u1" else EmptyString) in
  HttpLimiter.HeadersKeyFunc ["X-Token"; "X-User"] r = inl "u1"
  /\ "u1" <> EmptyString.
Proof.
  cbv zeta. split; [reflexivity|].
  destruct (HeadersKeyFunc_first_nonempty ["X-Token"; "X-User"]
              (HttpLimiter.mkRequest
                 (fun h => if String.eqb h "X-User" then "u1" else EmptyString)))
    as [H _].
  exact (proj1 (H "u1" eq_refl)).
Defined.

Ltac settle_outcome :=
  intros;
  unfold HttpLimiter.StatusInternalServerError,
    HttpLimiter.StatusTooManyRequests in *;
  repeat match goal with
  | H : exists _, _ |- _ => destruct H
  | H : _ /\ _ |- _ => destruct H
  | H : _ \/ _ |- _ => destruct H
  end;
  first [ congruence | reflexivity | (eexists; reflexivity) | eauto 10 ].

(** X21. What the middleware answers, over any storage. The wrapped
    handler runs exactly when the key function succeeds and [Take] returns
    no error and grants; the answer is 429 exactly when [Take] returns no
    error and denies, and 500 exactly when the key function or [Take]
    fails. When the key function fails the storage is not consulted. The
    retry header is set exactly on a 429, to the value of the reset header,
    and a 500 carries no rate-limit header. *)
Theorem Handle_outcomes {S : Type}
    (take : S -> string -> option (S * (Bucket.taken * option error)))
    (keyFunc : HttpLimiter.KeyFunc) (s s' : S) (r : HttpLimiter.request)
    (w : HttpLimiter.response) :
  HttpLimiter.Handle take keyFunc s r = Some (s', w) ->
  (HttpLimiter.result w = HttpLimiter.Next
   <-> exists key t,
         keyFunc r = inl key /\ take s key = Some (s', (t, None))
         /\ Bucket.ok t = true)
  /\ (HttpLimiter.result w
      = HttpLimiter.Failed HttpLimiter.StatusTooManyRequests
      <-> exists key t,
            keyFunc r = inl key /\ take s key = Some (s', (t, None))
            /\ Bucket.ok t = false)
  /\ (HttpLimiter.result w
      = HttpLimiter.Failed HttpLimiter.StatusInternalServerError
      <-> (exists e, keyFunc r = inr e)
          \/ exists key t e,
               keyFunc r = inl key /\ take s key = Some (s', (t, Some e)))
  /\ ((exists e, keyFunc r = inr e) -> s' = s)
  /\ (HttpLimiter.result w
      = HttpLimiter.Failed HttpLimiter.StatusInternalServerError ->
      HttpLimiter.headers w = ∅)
  /\ (HttpLimiter.result w
      = HttpLimiter.Failed HttpLimiter.StatusTooManyRequests ->
      HttpLimiter.headers w !! HttpLimiter.HeaderRetryAfter
      = HttpLimiter.headers w !! HttpLimiter.HeaderRateLimitReset
      /\ is_Some (HttpLimiter.headers w !! HttpLimiter.HeaderRetryAfter))
  /\ (HttpLimiter.result w = HttpLimiter.Next ->
      HttpLimiter.headers w !! HttpLimiter.HeaderRetryAfter = None).
Proof.
  unfold HttpLimiter.Handle.
  destruct (keyFunc r) as [key|e] eqn:Hk.
  - destruct (take s key) as [[s1 [t [e|]]]|] eqn:HT; [| |discriminate].
    + intros [= <- <-]. cbn. repeat split; settle_outcome.
    + destruct (Bucket.ok t) eqn:Hok; intros [= <- <-]; cbn;
        repeat split; settle_outcome.
  - intros [= <- <-]. cbn. repeat split; settle_outcome.
Qed.

Lemma Handle_outcomes_witness :
  let r := HttpLimiter.mkRequest (fun _ => "u1") in
  exists s' w,
    HttpLimiter.HandleMem (HttpLimiter.HeadersKeyFunc ["X-User"])
      (MemStorage.NewMemStorage None) r 0 1 = Some (s', w)
    /\ HttpLimiter.result w = HttpLimiter.Next.
Proof.
  cbv zeta. eexists _, _. split; [vm_compute; reflexivity|].
  refine (proj2 (proj1 (Handle_outcomes
            (fun s key => MemStorage.Take s key 0 1)
            (HttpLimiter.HeadersKeyFunc ["X-User"])
            (MemStorage.NewMemStorage None) _
            (HttpLimiter.mkRequest (fun _ => "u1")) _ _)) _).
  - vm_compute. reflexivity.
  - eexists "u1", _. split; [reflexivity|].
    split; [vm_compute; reflexivity | reflexivity].
Defined.







(** X23. A closed in-process storage makes the middleware answer 500 to
    every request that has a key: [Take] fails with the stopped error, the
    storage stays as it is, no rate-limit header is set and the wrapped
    handler does not run. *)
Theorem middleware_on_closed_storage (keyFunc : HttpLimiter.KeyFunc)
    (s : MemStorage.t) (r : HttpLimiter.request) (key : string)
    (created now : Z) :
  MemStorage.stopped s = 1 ->
  keyFunc r = inl key ->
  HttpLimiter.HandleMem keyFunc s r created now
  = Some (s, HttpLimiter.mkResponse ∅
               (HttpLimiter.Failed HttpLimiter.StatusInternalServerError)).
Proof.
  intros Hs Hk. unfold HttpLimiter.HandleMem, HttpLimiter.Handle.
  now rewrite Hk, (Mem_Take_stopped s key created now Hs).
Qed.

Lemma middleware_on_closed_storage_witness :
  let s := (MemStorage.Close (MemStorage.NewMemStorage None)).1 in
  HttpLimiter.HandleMem (HttpLimiter.HeadersKeyFunc ["X-User"]) s
    (HttpLimiter.mkRequest (fun _ => "u1")) 0 1
  = Some (s, HttpLimiter.mkResponse ∅
               (HttpLimiter.Failed HttpLimiter.StatusInternalServerError)).
Proof.
  cbv zeta.
  apply (middleware_on_closed_storage (HttpLimiter.HeadersKeyFunc ["X-User"])
           (MemStorage.Close (MemStorage.NewMemStorage None)).1
           (HttpLimiter.mkRequest (fun _ => "u1")) "u1" 0 1);
    reflexivity.
Defined.
